(** * janus-go: the Janus gateway client (janus.go)

    A shallow embedding of the transaction registry, the receive loop, the
    request calls and the Gateway -> Session -> Handle hierarchy of
    [janus.go], with the properties of its specification proved about it.

    Conventions of the embedding.
    - Go maps are [gmap]s: a key that is absent reads as the zero value
      ([nil] pointer, [false]).
    - [*Session] and [*Handle] are indices into the heaps [sessions] and
      [handles] of a [World]; [new(T)] appends to the heap.  A channel is an
      index into [chans], which records the capacity given to [make].
    - A [World] holds the one [Gateway] that [Connect] returned; the
      unexported back reference [session.gateway], which only [Create] sets,
      is that gateway.
    - Dereferencing a [nil] pointer is the outcome [Panic].
    - What a function does to the outside (transport writes, prints, spawned
      goroutines) is returned as a list of [Effect]s in program order.
    - What the outside hands in (the result of [conn.Read], of [conn.Write],
      the case a [select] takes) is an argument. *)

From stdpp Require Import base numbers strings list gmap.

Local Open Scope string_scope.
Local Open Scope list_scope.
Local Open Scope stdpp_scope.

(** ** Messages *)

(** The 12-byte [xid.ID], as the number its bytes spell. *)
Abbreviation xid := N (only parsing).
(** A pointer to a [Session], to a [Handle]; a channel. *)
Abbreviation sptr := nat (only parsing).
Abbreviation hptr := nat (only parsing).
Abbreviation chan := nat (only parsing).

(** Modelled from the spec: the message types of [types.go], which is not
    among the sources.  Section 3 of the specification lists the kinds of an
    inbound message: Success (carries the new id), Error (code and reason),
    Ack (carries nothing), Event (plugin payload and optional negotiation
    payload), Info (server snapshot) and the other kinds, told apart by their
    type tag. *)
Inductive Msg : Type :=
  | SuccessMsg (Data_ID : N)
  | ErrorMsg (Code : Z) (Reason : string)
  | AckMsg
  | EventMsg (Plugindata : string) (Jsep : string)
  | InfoMsg (info : string)
  | OtherMsg (tag : string).

(** Modelled from the spec: the common envelope [BaseMsg] of [types.go]
    (type tag, transaction id, session id, handle id). *)
Record BaseMsg : Type := mkBaseMsg {
  base_Type : string;
  base_ID : string;
  base_Session : N;
  base_Handle : N;
}.

(** A Go [error]: one made by [fmt.Errorf], an [*ErrorMsg] returned as an
    error, or one handed up by the transport, the JSON codec or the context. *)
Inductive error : Type :=
  | Errorf (text : string)
  | ErrorOf (msg : Msg)
  | External (text : string).

(** A value stored in a request envelope ([map[string]interface{}]). *)
Inductive Value : Type :=
  | VNil
  | VString (s : string)
  | VUint (n : N)
  | VAny (payload : string).

#[global] Instance Msg_eq_dec : EqDecision Msg.
Proof. solve_decision. Defined.
#[global] Instance error_eq_dec : EqDecision error.
Proof. solve_decision. Defined.
#[global] Instance Value_eq_dec : EqDecision Value.
Proof. solve_decision. Defined.

(** ** Constants and small helpers *)

Definition Second : Z := 1000000000.
Definition pingMessage : Z := 9.
Definition timeoutDuration : Z := 1 * Second.

Definition unexpected (request : string) : error :=
  Errorf ("Unexpected response received to '" +:+ request +:+ "' request").

(** ** The hierarchy *)

Record Handle : Type := mkHandle {
  Handle_ID : N;
  Handle_Type : string;
  Handle_User : string;
  Handle_Events : chan;
  Handle_session : sptr;
}.

Record Session : Type := mkSession {
  Session_ID : N;
  Session_Handles : gmap N hptr;
  Session_Events : chan;
}.

Record Gateway : Type := mkGateway {
  Sessions : gmap N sptr;
  transactions : gmap xid chan;
  transactionsUsed : gmap xid bool;
  apiSecret : string;
  LogJsonMessages : bool;
}.

Record World : Type := mkWorld {
  gateway : Gateway;
  sessions : list Session;
  handles : list Handle;
  chans : list nat;
  issued : nat;
}.

Definition with_gateway (g : Gateway) (w : World) : World :=
  mkWorld g (sessions w) (handles w) (chans w) (issued w).

Definition with_Sessions (m : gmap N sptr) (g : Gateway) : Gateway :=
  mkGateway m (transactions g) (transactionsUsed g) (apiSecret g) (LogJsonMessages g).

Definition with_Handles (m : gmap N hptr) (s : Session) : Session :=
  mkSession (Session_ID s) m (Session_Events s).

(** [make(chan interface{}, cap)]. *)
Definition make_chan (cap : nat) (w : World) : chan * World :=
  (length (chans w),
   mkWorld (gateway w) (sessions w) (handles w) (chans w ++ [cap]) (issued w)).

(** The [Gateway] as [Connect] sets it up. *)
Definition Connect (secret : string) : World :=
  mkWorld (mkGateway ∅ ∅ ∅ secret false) [] [] [] 0.

(** What a function does to the outside. *)
Inductive Effect : Type :=
  | ConnWrite (data : string)
  | Stdout (prefix : string) (data : string)
  | Printf (format : string) (arg : option error)
  | GoPassMsg (ch : chan) (msg : Msg).

(** The case a [select] over the timer, the context and the reply channel
    takes. *)
Inductive Selected : Type :=
  | TimedOut
  | CtxDone (err : error)
  | Received (msg : Msg).

(** The first component of what a call returns: a message, a [*Session] or a
    [*Handle]. *)
Inductive Ret : Type :=
  | RetMsg (msg : Msg)
  | RetSession (s : sptr)
  | RetHandle (h : hptr).

(** What a request call comes to once its [select] has taken a case: the
    pair it returns together with the world it leaves, a [nil] dereference, or
    (in [Message] only) the jump back to the label [GetMessage]. *)
Inductive Outcome : Type :=
  | Return (res : option Ret) (err : option error) (w : World)
  | Panic
  | GotoGetMessage.

(** ** Waiting for the reply *)

(** What is on its way to a waiting call: the reply and the instant it
    reaches the channel, the cancellation of the context and its instant, both
    in nanoseconds after the [select] is entered. *)
Record Pending : Type := mkPending {
  reply : option (Z * Msg);
  cancel : option (Z * error);
}.

Definition earliest (d : Z) (p : Pending) : Z :=
  let t := match cancel p with Some (tc, _) => Z.min d tc | None => d end in
  match reply p with Some (tr, _) => Z.min t tr | None => t end.

(** The cases that are ready at the first instant one of them is, in the
    order the source lists them. *)
Definition ready (d : Z) (p : Pending) : list Selected :=
  let t := earliest d p in
  (if (d =? t)%Z then [TimedOut] else []) ++
  match cancel p with
  | Some (tc, e) => if (tc =? t)%Z then [CtxDone e] else []
  | None => []
  end ++
  match reply p with
  | Some (tr, m) => if (tr =? t)%Z then [Received m] else []
  | None => []
  end.

(** [select] blocks until a case is ready and takes one of the ready cases;
    [pick] stands for the runtime's choice among several. *)
Definition select_ (d : Z) (p : Pending) (pick : nat) : Selected :=
  let r := ready d p in
  nth (pick mod length r) r TimedOut.

(** The header every request call shares:
    [select { case <-time.After(timeoutDuration): ...  case <-ctx.Done(): ...
    case msg := <-ch: ... }]. *)
Definition await (p : Pending) (pick : nat) : Selected :=
  select_ timeoutDuration p pick.

(** ** The program *)

Section Janus.

(** The pieces [janus.go] takes from elsewhere: the id generator and the
    codec of [github.com/rs/xid] ([xid_New n] is the id the [n]-th call of
    [xid.New] hands out, [xid_FromString] the id [FromString] returns, also
    when it reports an error, which [recv] drops), [encoding/json], and the
    table [msgtypes] of [types.go], from type tag to the constructor of an
    empty message. *)
Variable xid_New : nat -> xid.
Variable xid_String : xid -> string.
Variable xid_FromString : string -> xid.
Variable json_Marshal : gmap string Value -> error + string.
Variable json_Unmarshal_BaseMsg : string -> error + BaseMsg.
Variable msgtypes : gmap string (unit -> Msg).
Variable json_Unmarshal : string -> Msg -> error + Msg.

Definition generateTransactionId (w : World) : xid * World :=
  (xid_New (issued w),
   mkWorld (gateway w) (sessions w) (handles w) (chans w) (S (issued w))).

Definition newRequest (method : string) (w : World)
  : gmap string Value * chan * World :=
  let '(ch, w) := make_chan 0 w in
  (<["janus" := VString method]> ∅, ch, w).

(** *** send *)

(** [Gateway.send], lines 113-122: draw the id, fill the envelope, register
    the transaction under the gateway's lock. *)
Definition Gateway_send_register
    (w : World) (msg : gmap string Value) (transaction : chan)
  : xid * gmap string Value * World :=
  let '(guid, w) := generateTransactionId w in
  let msg := <["transaction" := VString (xid_String guid)]> msg in
  let g := gateway w in
  let msg :=
    if decide (apiSecret g ≠ "")
    then <["apisecret" := VString (apiSecret g)]> msg
    else msg in
  let g := mkGateway (Sessions g)
                     (<[guid := transaction]> (transactions g))
                     (<[guid := false]> (transactionsUsed g))
                     (apiSecret g) (LogJsonMessages g) in
  (guid, msg, with_gateway g w).

(** The copy of a message on standard output that [LogJsonMessages] asks
    for. *)
Definition json_log (w : World) (prefix data : string) : list Effect :=
  if LogJsonMessages (gateway w) then [Stdout prefix data] else [].

(** [Gateway.send], lines 124-138: marshal, log when asked to, write to the
    connection; [wr] is what [conn.Write] returns. *)
Definition Gateway_send_write
    (w : World) (msg : gmap string Value) (wr : option error)
  : list Effect * option error :=
  match json_Marshal msg with
  | inl err => ([], Some err)
  | inr data =>
      (json_log w ">" data ++ [ConnWrite data], wr)
  end.

(** A request on its way: the world after [send], the reply channel, the
    transaction id, the envelope as [send] left it, what was done to the
    outside and the error [send] returned. *)
Record Sent : Type := mkSent {
  sent_world : World;
  sent_chan : chan;
  sent_guid : xid;
  sent_msg : gmap string Value;
  sent_effects : list Effect;
  sent_err : option error;
}.

Definition Gateway_send
    (w : World) (msg : gmap string Value) (transaction : chan)
    (wr : option error) : Sent :=
  let '(guid, msg, w) := Gateway_send_register w msg transaction in
  let '(effects, err) := Gateway_send_write w msg wr in
  mkSent w transaction guid msg effects err.

(** [Session.send]; [None] is the panic on a [nil] session. *)
Definition Session_send
    (w : World) (session : sptr) (msg : gmap string Value)
    (transaction : chan) (wr : option error) : option Sent :=
  s ← sessions w !! session;
  let msg := <["session_id" := VUint (Session_ID s)]> msg in
  Some (Gateway_send w msg transaction wr).

(** [Handle.send]. *)
Definition Handle_send
    (w : World) (handle : hptr) (msg : gmap string Value)
    (transaction : chan) (wr : option error) : option Sent :=
  h ← handles w !! handle;
  let msg := <["handle_id" := VUint (Handle_ID h)]> msg in
  Session_send w (Handle_session h) msg transaction wr.

(** *** The request calls

    Each call is split where it blocks: [X_begin] is the part before the
    [select] ([newRequest] and [send]), [X_on] the part from the case the
    [select] takes to the [return].  Other goroutines run in between, so
    [X_on] starts from any world. *)

Definition timeout_waiting (what : string) : error :=
  Errorf ("timeout waiting for response to " +:+ what).

Definition Gateway_Info_begin (w : World) (wr : option error) : option Sent :=
  let '(req, ch, w) := newRequest "info" w in
  Some (Gateway_send w req ch wr).

Definition Gateway_Info_on (w : World) (o : Selected) : Outcome :=
  match o with
  | TimedOut => Return None (Some (timeout_waiting "'info'")) w
  | CtxDone err => Return None (Some err) w
  | Received msg =>
      match msg with
      | InfoMsg _ => Return (Some (RetMsg msg)) None w
      | ErrorMsg _ _ => Return None (Some (ErrorOf msg)) w
      | _ => Return None (Some (unexpected "info")) w
      end
  end.

Definition Gateway_Create_begin (w : World) (wr : option error) : option Sent :=
  let '(req, ch, w) := newRequest "create" w in
  Some (Gateway_send w req ch wr).

(** [Create], lines 341-353; [success] is the variable the [switch] may have
    left [nil]. *)
Definition Gateway_Create_store (w : World) (success : option N) : Outcome :=
  match success with
  | None => Panic
  | Some id =>
      let '(events, w) := make_chan 2 w in
      let session := mkSession id ∅ events in
      let sp := length (sessions w) in
      let w := mkWorld (gateway w) (sessions w ++ [session]) (handles w)
                       (chans w) (issued w) in
      let g := gateway w in
      let w := with_gateway (with_Sessions (<[Session_ID session := sp]> (Sessions g)) g) w in
      Return (Some (RetSession sp)) None w
  end.

Definition Gateway_Create_on (w : World) (o : Selected) : Outcome :=
  match o with
  | TimedOut => Return None (Some (timeout_waiting "'create'")) w
  | CtxDone err => Return None (Some err) w
  | Received msg =>
      match msg with
      | SuccessMsg id => Gateway_Create_store w (Some id)
      | ErrorMsg _ _ => Return None (Some (ErrorOf msg)) w
      | _ => Gateway_Create_store w None
      end
  end.

Definition Session_Attach_begin
    (w : World) (session : sptr) (plugin : string) (wr : option error)
  : option Sent :=
  let '(req, ch, w) := newRequest "attach" w in
  let req := <["plugin" := VString plugin]> req in
  Session_send w session req ch wr.

(** [Attach], lines 404-413. *)
Definition Session_Attach_store
    (w : World) (session : sptr) (success : option N) : Outcome :=
  match success with
  | None => Panic
  | Some id =>
      let '(events, w) := make_chan 8 w in
      let handle := mkHandle id "" "" events session in
      let hp := length (handles w) in
      let w := mkWorld (gateway w) (sessions w) (handles w ++ [handle])
                       (chans w) (issued w) in
      match sessions w !! session with
      | None => Panic
      | Some s =>
          let s := with_Handles (<[Handle_ID handle := hp]> (Session_Handles s)) s in
          Return (Some (RetHandle hp)) None
                 (mkWorld (gateway w) (<[session := s]> (sessions w)) (handles w)
                          (chans w) (issued w))
      end
  end.

Definition Session_Attach_on (w : World) (session : sptr) (o : Selected) : Outcome :=
  match o with
  | TimedOut => Return None (Some (timeout_waiting "'attach'")) w
  | CtxDone err => Return None (Some err) w
  | Received msg =>
      match msg with
      | SuccessMsg id => Session_Attach_store w session (Some id)
      | ErrorMsg _ _ => Return None (Some (ErrorOf msg)) w
      | _ => Session_Attach_store w session None
      end
  end.

Definition Session_KeepAlive_begin
    (w : World) (session : sptr) (wr : option error) : option Sent :=
  let '(req, ch, w) := newRequest "keepalive" w in
  Session_send w session req ch wr.

Definition Session_KeepAlive_on (w : World) (o : Selected) : Outcome :=
  match o with
  | TimedOut => Return None (Some (timeout_waiting "'keepalive'")) w
  | CtxDone err => Return None (Some err) w
  | Received msg =>
      match msg with
      | AckMsg => Return (Some (RetMsg msg)) None w
      | ErrorMsg _ _ => Return None (Some (ErrorOf msg)) w
      | _ => Return None (Some (unexpected "keepalive")) w
      end
  end.

Definition Session_Destroy_begin
    (w : World) (session : sptr) (wr : option error) : option Sent :=
  let '(req, ch, w) := newRequest "destroy" w in
  Session_send w session req ch wr.

(** [Destroy], lines 467-472; [ack] is the variable the [switch] may have left
    [nil]. *)
Definition Session_Destroy_remove
    (w : World) (session : sptr) (ack : option Msg) : Outcome :=
  match sessions w !! session with
  | None => Panic
  | Some s =>
      let g := gateway w in
      Return (RetMsg <$> ack) None
             (with_gateway (with_Sessions (delete (Session_ID s) (Sessions g)) g) w)
  end.

Definition Session_Destroy_on (w : World) (session : sptr) (o : Selected) : Outcome :=
  match o with
  | TimedOut => Return None (Some (timeout_waiting "'destroy'")) w
  | CtxDone err => Return None (Some err) w
  | Received msg =>
      match msg with
      | AckMsg => Session_Destroy_remove w session (Some msg)
      | ErrorMsg _ _ => Return None (Some (ErrorOf msg)) w
      | _ => Session_Destroy_remove w session None
      end
  end.

Definition Handle_Request_begin
    (w : World) (handle : hptr) (body : Value) (wr : option error) : option Sent :=
  let '(req, ch, w) := newRequest "message" w in
  let req := if decide (body ≠ VNil) then <["body" := body]> req else req in
  Handle_send w handle req ch wr.

Definition Handle_Request_on (w : World) (o : Selected) : Outcome :=
  match o with
  | TimedOut => Return None (Some (timeout_waiting "'message'")) w
  | CtxDone err => Return None (Some err) w
  | Received msg =>
      match msg with
      | SuccessMsg _ => Return (Some (RetMsg msg)) None w
      | ErrorMsg _ _ => Return None (Some (ErrorOf msg)) w
      | _ => Return None (Some (unexpected "message")) w
      end
  end.

Definition Handle_Message_begin
    (w : World) (handle : hptr) (body jsep : Value) (wr : option error)
  : option Sent :=
  let '(req, ch, w) := newRequest "message" w in
  let req := if decide (body ≠ VNil) then <["body" := body]> req else req in
  let req := if decide (jsep ≠ VNil) then <["jsep" := jsep]> req else req in
  Handle_send w handle req ch wr.

(** One pass through the [select] under the label [GetMessage]. *)
Definition Handle_Message_on (w : World) (o : Selected) : Outcome :=
  match o with
  | TimedOut => Return None (Some (timeout_waiting "'message'")) w
  | CtxDone err => Return None (Some err) w
  | Received msg =>
      match msg with
      | AckMsg => GotoGetMessage
      | EventMsg _ _ => Return (Some (RetMsg msg)) None w
      | ErrorMsg _ _ => Return None (Some (ErrorOf msg)) w
      | _ => Return None (Some (unexpected "message")) w
      end
  end.

(** The loop the [goto] makes; [rounds] lists the case each successive
    [select] takes, and [None] is a call still blocked in its [select]. *)
Fixpoint Handle_Message_wait (w : World) (rounds : list Selected) : option Outcome :=
  match rounds with
  | [] => None
  | o :: rounds =>
      match Handle_Message_on w o with
      | GotoGetMessage => Handle_Message_wait w rounds
      | out => Some out
      end
  end.

Definition Handle_Trickle_begin
    (w : World) (handle : hptr) (candidate : Value) (wr : option error)
  : option Sent :=
  let '(req, ch, w) := newRequest "trickle" w in
  let req := <["candidate" := candidate]> req in
  Handle_send w handle req ch wr.

Definition Handle_Trickle_on (w : World) (o : Selected) : Outcome :=
  match o with
  | TimedOut => Return None (Some (timeout_waiting "'trickle'")) w
  | CtxDone err => Return None (Some err) w
  | Received msg =>
      match msg with
      | AckMsg => Return (Some (RetMsg msg)) None w
      | ErrorMsg _ _ => Return None (Some (ErrorOf msg)) w
      | _ => Return None (Some (unexpected "trickle")) w
      end
  end.

Definition Handle_TrickleMany_begin
    (w : World) (handle : hptr) (candidates : Value) (wr : option error)
  : option Sent :=
  let '(req, ch, w) := newRequest "trickle" w in
  let req := <["candidates" := candidates]> req in
  Handle_send w handle req ch wr.

Definition Handle_TrickleMany_on (w : World) (o : Selected) : Outcome :=
  match o with
  | TimedOut => Return None (Some (timeout_waiting "'trickle'/many")) w
  | CtxDone err => Return None (Some err) w
  | Received msg =>
      match msg with
      | AckMsg => Return (Some (RetMsg msg)) None w
      | ErrorMsg _ _ => Return None (Some (ErrorOf msg)) w
      | _ => Return None (Some (unexpected "trickle")) w
      end
  end.

Definition Handle_Detach_begin
    (w : World) (handle : hptr) (wr : option error) : option Sent :=
  let '(req, ch, w) := newRequest "detach" w in
  Handle_send w handle req ch wr.

(** [Detach], lines 652-657. *)
Definition Handle_Detach_remove
    (w : World) (handle : hptr) (ack : option Msg) : Outcome :=
  match handles w !! handle with
  | None => Panic
  | Some h =>
      match sessions w !! Handle_session h with
      | None => Panic
      | Some s =>
          let s := with_Handles (delete (Handle_ID h) (Session_Handles s)) s in
          Return (RetMsg <$> ack) None
                 (mkWorld (gateway w) (<[Handle_session h := s]> (sessions w))
                          (handles w) (chans w) (issued w))
      end
  end.

Definition Handle_Detach_on (w : World) (handle : hptr) (o : Selected) : Outcome :=
  match o with
  | TimedOut => Return None (Some (timeout_waiting "'detach'")) w
  | CtxDone err => Return None (Some err) w
  | Received msg =>
      match msg with
      | AckMsg => Handle_Detach_remove w handle (Some msg)
      | ErrorMsg _ _ => Return None (Some (ErrorOf msg)) w
      | _ => Handle_Detach_remove w handle None
      end
  end.

(** The ten calls under one name, for statements about all of them. *)
Inductive Call : Type :=
  | Info
  | Create
  | Attach (session : sptr) (plugin : string)
  | KeepAlive (session : sptr)
  | Destroy (session : sptr)
  | Request (handle : hptr) (body : Value)
  | Message (handle : hptr) (body jsep : Value)
  | Trickle (handle : hptr) (candidate : Value)
  | TrickleMany (handle : hptr) (candidates : Value)
  | Detach (handle : hptr).

Definition call_begin (c : Call) (w : World) (wr : option error) : option Sent :=
  match c with
  | Info => Gateway_Info_begin w wr
  | Create => Gateway_Create_begin w wr
  | Attach s plugin => Session_Attach_begin w s plugin wr
  | KeepAlive s => Session_KeepAlive_begin w s wr
  | Destroy s => Session_Destroy_begin w s wr
  | Request h body => Handle_Request_begin w h body wr
  | Message h body jsep => Handle_Message_begin w h body jsep wr
  | Trickle h candidate => Handle_Trickle_begin w h candidate wr
  | TrickleMany h candidates => Handle_TrickleMany_begin w h candidates wr
  | Detach h => Handle_Detach_begin w h wr
  end.

Definition call_on (c : Call) (w : World) (o : Selected) : Outcome :=
  match c with
  | Info => Gateway_Info_on w o
  | Create => Gateway_Create_on w o
  | Attach s _ => Session_Attach_on w s o
  | KeepAlive _ => Session_KeepAlive_on w o
  | Destroy s => Session_Destroy_on w s o
  | Request _ _ => Handle_Request_on w o
  | Message _ _ _ => Handle_Message_on w o
  | Trickle _ _ => Handle_Trickle_on w o
  | TrickleMany _ _ => Handle_TrickleMany_on w o
  | Detach h => Handle_Detach_on w h o
  end.

(** The wait of a call: one [select] after the other until a case returns
    ([Message] is the only call that comes back for a second one).  [None] is
    a call still blocked in a [select]. *)
Fixpoint call_wait (c : Call) (w : World) (rounds : list Selected) : option Outcome :=
  match rounds with
  | [] => None
  | o :: rounds =>
      match call_on c w o with
      | GotoGetMessage => call_wait c w rounds
      | out => Some out
      end
  end.

(** A call from its first line to its [return], nothing else running in
    between: [send], and the wait unless [send] failed. *)
Definition call (c : Call) (w : World) (wr : option error) (rounds : list Selected)
  : option Outcome :=
  match call_begin c w wr with
  | None => Some Panic
  | Some s =>
      match sent_err s with
      | Some err => Some (Return None (Some err) (sent_world s))
      | None => call_wait c (sent_world s) rounds
      end
  end.

(** *** The receive loop *)

(** [passMsg]: [reader] says whether a receiver took the message before the
    timer fired. *)
Inductive Delivery : Type :=
  | ChanSend (ch : chan) (msg : Msg)
  | Discarded (msg : Msg).

Definition passMsg (ch : chan) (msg : Msg) (reader : bool) : Delivery :=
  if reader then ChanSend ch msg else Discarded msg.

(** How one pass through the body of the [for] ends: with [continue] or at
    the end of the body, with [return err], or in a [nil] dereference. *)
Inductive Control : Type :=
  | Continue
  | ReturnErr (err : error)
  | Crash.

(** [recv], lines 244-270: a push is handed to the events of the handle it
    names; [log] is what the pass has printed so far. *)
Definition recv_event (w : World) (base : BaseMsg) (msg : Msg) (log : list Effect)
  : World * list Effect * Control :=
  if decide (base_Handle base = 0%N) then (w, log, Continue)
  else
    match Sessions (gateway w) !! base_Session base with
    | None =>
        (w, log ++ [Printf "Unable to deliver message. Session gone?\n" None], Continue)
    | Some sp =>
    match sessions w !! sp with
    | None => (w, log, Crash)
    | Some session =>
    match Session_Handles session !! base_Handle base with
    | None =>
        (w, log ++ [Printf "Unable to deliver message. Handle gone?\n" None], Continue)
    | Some hp =>
    match handles w !! hp with
    | None => (w, log, Crash)
    | Some handle => (w, log ++ [GoPassMsg (Handle_Events handle) msg], Continue)
    end end end end.

(** [recv], line 278: the mark on a transaction whose reply is an Event. *)
Definition mark_used (id : xid) (w : World) : World :=
  let g := gateway w in
  with_gateway (mkGateway (Sessions g) (transactions g)
                          (<[id := true]> (transactionsUsed g))
                          (apiSecret g) (LogJsonMessages g)) w.

(** [recv], lines 272-286: a reply is handed to the channel of its
    transaction. *)
Definition recv_reply (w : World) (base : BaseMsg) (msg : Msg) (log : list Effect)
  : World * list Effect * Control :=
  let id := xid_FromString (base_ID base) in
  let transaction := transactions (gateway w) !! id in
  let w :=
    match msg with
    | EventMsg _ _ => mark_used id w
    | _ => w
    end in
  match transaction with
  | None => (w, log, ReturnErr (Errorf "null transaction"))
  | Some ch => (w, log ++ [GoPassMsg ch msg], Continue)
  end.

(** [recv], lines 234-243: the flag of the transaction the message names. *)
Definition transactionUsed (w : World) (base : BaseMsg) : bool :=
  if decide (base_ID base ≠ "")
  then default false (transactionsUsed (gateway w) !! xid_FromString (base_ID base))
  else false.

(** One pass through the body of the loop of [recv]; [rd] is what
    [conn.Read] returns. *)
Definition recv_pass (w : World) (rd : error + string)
  : World * list Effect * Control :=
  match rd with
  | inl err => (w, [], ReturnErr err)
  | inr data =>
  match json_Unmarshal_BaseMsg data with
  | inl err => (w, [], ReturnErr err)
  | inr base =>
  let log := json_log w "<" data in
  match msgtypes !! base_Type base with
  | None => (w, log ++ [Printf "Unknown message type received!\n" None], Continue)
  | Some typeFunc =>
  match json_Unmarshal data (typeFunc ()) with
  | inl err => (w, log ++ [Printf "json.Unmarshal: %s\n" (Some err)], ReturnErr err)
  | inr msg =>
      if bool_decide (base_ID base = "") || transactionUsed w base
      then recv_event w base msg log
      else recv_reply w base msg log
  end end end end.

(** The loop: [reads] is what the successive calls of [conn.Read] return; a
    result [Continue] is a loop blocked in the next [conn.Read]. *)
Fixpoint Gateway_recv (w : World) (reads : list (error + string))
  : World * list Effect * Control :=
  match reads with
  | [] => (w, [], Continue)
  | rd :: reads =>
      match recv_pass w rd with
      | (w, effects, Continue) =>
          let '(w, more, end_) := Gateway_recv w reads in
          (w, effects ++ more, end_)
      | stopped => stopped
      end
  end.

(** A call against the clock: each [select] is [await] on what is on its way
    to it. *)
Definition call_timed
    (c : Call) (w : World) (wr : option error) (rounds : list (Pending * nat))
  : option Outcome :=
  call c w wr (map (λ r, await r.1 r.2) rounds).

(** *** Words of the specification *)

(** The reply a call takes for its success: the first case of its [switch]
    (for [Message] the case that returns the message). *)
Definition expects (c : Call) (msg : Msg) : bool :=
  match c, msg with
  | Info, InfoMsg _ => true
  | (Create | Attach _ _ | Request _ _), SuccessMsg _ => true
  | (KeepAlive _ | Destroy _ | Trickle _ _ | TrickleMany _ _ | Detach _), AckMsg => true
  | Message _ _ _, EventMsg _ _ => true
  | _, _ => false
  end.

Definition is_ErrorMsg (msg : Msg) : bool :=
  match msg with ErrorMsg _ _ => true | _ => false end.

(** The request a call names when it complains of its reply. *)
Definition request_name (c : Call) : string :=
  match c with
  | Info => "info"
  | Create => "create"
  | Attach _ _ => "attach"
  | KeepAlive _ => "keepalive"
  | Destroy _ => "destroy"
  | Request _ _ | Message _ _ _ => "message"
  | Trickle _ _ | TrickleMany _ _ => "trickle"
  | Detach _ => "detach"
  end.

(** The handle a call is made on, and the session it goes through. *)
Definition call_handle (c : Call) : option hptr :=
  match c with
  | Request h _ | Message h _ _ | Trickle h _ | TrickleMany h _ | Detach h => Some h
  | _ => None
  end.

Definition call_session (c : Call) (w : World) : option sptr :=
  match c with
  | Attach s _ | KeepAlive s | Destroy s => Some s
  | _ => h ← call_handle c; Handle_session <$> handles w !! h
  end.

(** The calls that change the hierarchy once their reply is in. *)
Definition stores (c : Call) : bool :=
  match c with
  | Create | Attach _ _ | Destroy _ | Detach _ => true
  | _ => false
  end.

(** The hierarchy: the session map of the gateway and the objects it leads
    to. *)
Definition hierarchy (w : World) : gmap N sptr * list Session * list Handle :=
  (Sessions (gateway w), sessions w, handles w).

(** The world [send] leaves when it is entered in [w] by a call that made its
    channel with [newRequest]. *)
Definition after_send (w : World) : World :=
  let g := gateway w in
  let guid := xid_New (issued w) in
  mkWorld (mkGateway (Sessions g)
                     (<[guid := length (chans w)]> (transactions g))
                     (<[guid := false]> (transactionsUsed g))
                     (apiSecret g) (LogJsonMessages g))
          (sessions w) (handles w) (chans w ++ [0]) (S (issued w)).

(** *** Worlds the program can be in *)

Definition set_LogJsonMessages (b : bool) (w : World) : World :=
  let g := gateway w in
  with_gateway (mkGateway (Sessions g) (transactions g) (transactionsUsed g)
                          (apiSecret g) b) w.

(** One move of one goroutine: a call runs up to its [select], a call runs
    from its [select] on, [recv] runs once through its loop, or the owner
    flips [LogJsonMessages]. *)
Inductive step : World → World → Prop :=
  | step_begin c w wr s :
      call_begin c w wr = Some s → step w (sent_world s)
  | step_on c w o res err w' :
      call_on c w o = Return res err w' → step w w'
  | step_recv w rd w' effects ctl :
      recv_pass w rd = (w', effects, ctl) → step w w'
  | step_log w b :
      step w (set_LogJsonMessages b w).

Definition reachable (w : World) : Prop :=
  ∃ secret, rtc step (Connect secret) w.

(** The world each of these moves leads to. *)
Definition begin_world (c : Call) (w : World) (wr : option error) : World :=
  match call_begin c w wr with
  | Some s => sent_world s
  | None => w
  end.

Definition on_world (c : Call) (w : World) (o : Selected) : World :=
  match call_on c w o with
  | Return _ _ w' => w'
  | _ => w
  end.

Definition recv_world (w : World) (rd : error + string) : World :=
  (recv_pass w rd).1.1.

(** What holds of every such world: a registered transaction has an id that
    [generateTransactionId] issued and a channel made by [newRequest]
    (unbuffered); the [Events] of a session is a channel made by [Create]
    (capacity 2), the [Events] of a handle one made by [Attach]
    (capacity 8). *)
Record wf (w : World) : Prop := mk_wf {
  wf_transactions : ∀ id ch,
    transactions (gateway w) !! id = Some ch →
    chans w !! ch = Some 0 ∧ ∃ k, k < issued w ∧ id = xid_New k;
  wf_sessions : ∀ sp session,
    sessions w !! sp = Some session →
    chans w !! Session_Events session = Some 2;
  wf_handles : ∀ hp handle,
    handles w !! hp = Some handle →
    chans w !! Handle_Events handle = Some 8;
}.

(** ** Properties *)

(** *** What [send] leaves behind *)

Ltac unfold_begin :=
  unfold call_begin, Gateway_Info_begin, Gateway_Create_begin,
    Session_Attach_begin, Session_KeepAlive_begin, Session_Destroy_begin,
    Handle_Request_begin, Handle_Message_begin, Handle_Trickle_begin,
    Handle_TrickleMany_begin, Handle_Detach_begin, newRequest, make_chan,
    Handle_send, Session_send.

Ltac unfold_send :=
  unfold Gateway_send, Gateway_send_register, generateTransactionId,
    Gateway_send_write.

Lemma Gateway_send_world w msg ch wr :
  sent_world (Gateway_send w msg ch wr)
  = (Gateway_send_register w msg ch).2
  ∧ sent_chan (Gateway_send w msg ch wr) = ch
  ∧ sent_guid (Gateway_send w msg ch wr) = xid_New (issued w).
Proof.
  unfold_send; simpl. by destruct (json_Marshal _).
Qed.

(** The envelope a call hands to [send]. *)
Lemma call_begin_request c w wr s :
  call_begin c w wr = Some s →
  ∃ req,
    s = Gateway_send (make_chan 0 w).2 req (length (chans w)) wr
    ∧ req !! "apisecret" = None
    ∧ (∀ sp session,
         call_session c w = Some sp → sessions w !! sp = Some session →
         req !! "session_id" = Some (VUint (Session_ID session)))
    ∧ (∀ hp handle,
         call_handle c = Some hp → handles w !! hp = Some handle →
         req !! "handle_id" = Some (VUint (Handle_ID handle))).
Proof.
  intros Hs.
  destruct c; revert Hs; unfold_begin; simpl; intros Hs;
    repeat match type of Hs with
      | context [?l !! ?i] =>
          destruct (l !! i) eqn:?; simpl in Hs; [|discriminate]
      end;
    simplify_eq; eexists; (split; [reflexivity|]);
    repeat case_decide; split_and!; intros; by simplify_map_eq.
Qed.

Lemma call_begin_after_send c w wr s :
  call_begin c w wr = Some s →
  sent_world s = after_send w
  ∧ sent_chan s = length (chans w)
  ∧ sent_guid s = xid_New (issued w).
Proof.
  intros (req & -> & _)%call_begin_request.
  by destruct (Gateway_send_world (make_chan 0 w).2 req (length (chans w)) wr)
    as (-> & -> & ->).
Qed.

Lemma call_begin_hierarchy c w wr s :
  call_begin c w wr = Some s → hierarchy (sent_world s) = hierarchy w.
Proof. intros Hs. by destruct (call_begin_after_send _ _ _ _ Hs) as (-> & _). Qed.

Lemma call_begin_registered c w wr s :
  call_begin c w wr = Some s →
  transactions (gateway (sent_world s)) !! sent_guid s = Some (sent_chan s)
  ∧ transactionsUsed (gateway (sent_world s)) !! sent_guid s = Some false.
Proof.
  intros Hs. destruct (call_begin_after_send _ _ _ _ Hs) as (-> & -> & ->).
  simpl. by rewrite !lookup_insert_eq.
Qed.

(** *** The clock *)

Lemma ready_timer_only (d : Z) (p : Pending) :
  (∀ t m, reply p = Some (t, m) → (d < t)%Z) →
  (∀ t e, cancel p = Some (t, e) → (d < t)%Z) →
  ready d p = [TimedOut].
Proof.
  intros Hr Hc. unfold ready, earliest.
  destruct p as [[[tr m]|] [[tc e]|]]; cbn [reply cancel] in *;
    try specialize (Hr _ _ eq_refl); try specialize (Hc _ _ eq_refl);
    repeat match goal with
      | |- context [Z.min ?a ?b] => rewrite (Z.min_l a b) by lia
      end;
    rewrite Z.eqb_refl;
    repeat match goal with
      | |- context [(?a =? ?b)%Z] =>
          destruct (Z.eqb_spec a b); [lia|]
      end; done.
Qed.

Lemma await_times_out (p : Pending) (pick : nat) :
  (∀ t m, reply p = Some (t, m) → (timeoutDuration < t)%Z) →
  (∀ t e, cancel p = Some (t, e) → (timeoutDuration < t)%Z) →
  await p pick = TimedOut.
Proof.
  intros Hr Hc. unfold await, select_. cbv zeta.
  rewrite ready_timer_only by done.
  change (length [TimedOut]) with 1. by rewrite Nat.mod_1_r.
Qed.

(** *** Replies *)

Lemma call_wait_cons c w o rounds :
  call_wait c w (o :: rounds)
  = match call_on c w o with
    | GotoGetMessage => call_wait c w rounds
    | out => Some out
    end.
Proof. done. Qed.

(** C5: a call whose reply is an Error message returns that message as its
    error, with no result, and leaves the world as it found it: the session of
    a failed [Destroy] is still in [Sessions], the handle of a failed [Detach]
    still in [Handles].  This holds for the [select] alone from any world, for
    the wait of [Message] as well (the Error is the first reply here), and for
    the call from its first line on, where the hierarchy at the [return] is the
    hierarchy the call was entered with. *)
Theorem error_reply_is_returned
    (c : Call) (w : World) (code : Z) (reason : string) (rounds : list Selected) :
  let reply := ErrorMsg code reason in
  call_on c w (Received reply) = Return None (Some (ErrorOf reply)) w
  ∧ call_wait c w (Received reply :: rounds)
    = Some (Return None (Some (ErrorOf reply)) w)
  ∧ (∀ wr s, call_begin c w wr = Some s → sent_err s = None →
       call c w wr (Received reply :: rounds)
       = Some (Return None (Some (ErrorOf reply)) (sent_world s))
       ∧ hierarchy (sent_world s) = hierarchy w).
Proof.
  intros reply.
  assert (∀ w', call_on c w' (Received reply)
                = Return None (Some (ErrorOf reply)) w')
    as Hon by (by destruct c).
  split_and!; [done|by rewrite call_wait_cons, Hon|].
  intros wr s Hs Herr. split; [|by eapply call_begin_hierarchy].
  unfold call. by rewrite Hs, Herr, call_wait_cons, Hon.
Qed.

Lemma call_wait_Message h body jsep w rounds :
  call_wait (Message h body jsep) w rounds = Handle_Message_wait w rounds.
Proof.
  induction rounds as [|o rounds IH]; [done|].
  cbn [call_wait Handle_Message_wait call_on]. by rewrite IH.
Qed.

(** An Error that follows Acks ends [Message] in the same way. *)
Lemma Message_error_after_acks w n code reason rounds :
  Handle_Message_wait w
    (replicate n (Received AckMsg) ++ Received (ErrorMsg code reason) :: rounds)
  = Some (Return None (Some (ErrorOf (ErrorMsg code reason))) w).
Proof. by induction n. Qed.

(** C6: [Message] steps over every Ack: an Ack sends it back to the label
    [GetMessage], after any number of Acks it is still waiting, and when an
    Event follows one or more Acks it returns that Event, with no error and
    the world untouched, whatever arrives afterwards; so does the call from
    its first line on. *)
Theorem message_waits_past_acks
    (w : World) (n : nat) (plugindata jsep : string) (rest : list Selected) :
  let event := EventMsg plugindata jsep in
  Handle_Message_on w (Received AckMsg) = GotoGetMessage
  ∧ Handle_Message_wait w (replicate (S n) (Received AckMsg)) = None
  ∧ Handle_Message_wait w
      (replicate (S n) (Received AckMsg) ++ Received event :: rest)
    = Some (Return (Some (RetMsg event)) None w)
  ∧ (∀ h body offer wr s,
       call_begin (Message h body offer) w wr = Some s → sent_err s = None →
       call (Message h body offer) w wr
         (replicate (S n) (Received AckMsg) ++ Received event :: rest)
       = Some (Return (Some (RetMsg event)) None (sent_world s))).
Proof.
  intros event.
  assert (∀ w', Handle_Message_wait w'
                  (replicate (S n) (Received AckMsg) ++ Received event :: rest)
                = Some (Return (Some (RetMsg event)) None w')) as Hwait
    by (intros w'; simpl; by induction n).
  split_and!; [done| |apply Hwait|].
  - clear Hwait. simpl. by induction n.
  - intros h body offer wr s Hs Herr. unfold call.
    by rewrite Hs, Herr, call_wait_Message.
Qed.

(** C1, as the code has it: [Info], [KeepAlive], [Request], [Trickle] and
    [TrickleMany] answer a reply that is neither the one they expect nor an
    Error with the error [unexpected], and so does [Message] unless the reply
    is an Ack; the world stays as it was. *)
Theorem unexpected_reply_is_an_error (c : Call) (w : World) (msg : Msg) :
  expects c msg = false →
  is_ErrorMsg msg = false →
  stores c = false →
  (∀ h body jsep, c = Message h body jsep → msg ≠ AckMsg) →
  call_on c w (Received msg)
  = Return None (Some (unexpected (request_name c))) w.
Proof.
  intros Hex Herr Hst Hack.
  destruct c; try discriminate Hst; destruct msg; try discriminate; try done.
  by destruct (Hack _ _ _ eq_refl).
Qed.

(** The four calls that store or remove do not have that last line: with a
    reply they do not expect [Create] and [Attach] read the id through a [nil]
    pointer, [Destroy] and [Detach] remove the entry and return neither a
    message nor an error. *)
Lemma storing_calls_on_other_reply (w : World) (msg : Msg) :
  is_ErrorMsg msg = false →
  (expects Create msg = false → Gateway_Create_on w (Received msg) = Panic)
  ∧ (∀ s plugin, expects (Attach s plugin) msg = false →
       Session_Attach_on w s (Received msg) = Panic)
  ∧ (∀ s, expects (Destroy s) msg = false →
       Session_Destroy_on w s (Received msg) = Session_Destroy_remove w s None)
  ∧ (∀ h, expects (Detach h) msg = false →
       Handle_Detach_on w h (Received msg) = Handle_Detach_remove w h None).
Proof. intros Herr. by destruct msg. Qed.

(** C7: every call waits in [await], the [select] whose timer is the one
    constant [timeoutDuration]; a call has no argument that could change it.
    When neither a reply nor the cancellation of the context comes within
    that time, the call returns the error [timeout waiting for response to
    ...] and nothing else, and the world is the one [send] left, so the
    transaction is still registered under its id, with its channel and not
    marked used.  The timer case returns in this way from any world. *)
Theorem timeout_is_returned_to_the_caller
    (c : Call) (w : World) (wr : option error) (s : Sent)
    (p : Pending) (pick : nat) (later : list (Pending * nat)) :
  call_begin c w wr = Some s →
  sent_err s = None →
  (∀ t m, reply p = Some (t, m) → (timeoutDuration < t)%Z) →
  (∀ t e, cancel p = Some (t, e) → (timeoutDuration < t)%Z) →
  ∃ what,
    (∀ w', call_on c w' TimedOut
           = Return None (Some (timeout_waiting what)) w')
    ∧ call_timed c w wr ((p, pick) :: later)
      = Some (Return None (Some (timeout_waiting what)) (sent_world s))
    ∧ transactions (gateway (sent_world s)) !! sent_guid s = Some (sent_chan s)
    ∧ transactionsUsed (gateway (sent_world s)) !! sent_guid s = Some false.
Proof.
  intros Hs Herr Hr Hc.
  assert (∃ what, ∀ w', call_on c w' TimedOut
                        = Return None (Some (timeout_waiting what)) w')
    as [what Hon] by (destruct c; eexists; intros; reflexivity).
  exists what. split_and!; [done| |by eapply call_begin_registered..].
  unfold call_timed, call. rewrite Hs, Herr. cbn [map fst snd].
  by rewrite await_times_out, call_wait_cons, Hon.
Qed.

(** *** The receive loop *)

Lemma Gateway_recv_cons w rd reads :
  Gateway_recv w (rd :: reads)
  = match recv_pass w rd with
    | (w, effects, Continue) =>
        let '(w, more, end_) := Gateway_recv w reads in
        (w, effects ++ more, end_)
    | stopped => stopped
    end.
Proof. done. Qed.

(** The pass once the message is decoded. *)
Lemma recv_pass_decoded w data base typeFunc msg :
  json_Unmarshal_BaseMsg data = inr base →
  msgtypes !! base_Type base = Some typeFunc →
  json_Unmarshal data (typeFunc ()) = inr msg →
  recv_pass w (inr data)
  = if bool_decide (base_ID base = "") || transactionUsed w base
    then recv_event w base msg (json_log w "<" data)
    else recv_reply w base msg (json_log w "<" data).
Proof. intros Hb Ht Hm. unfold recv_pass. by rewrite Hb, Ht, Hm. Qed.

(** C8: when the envelope does not decode, [recv] returns the error and
    nothing is printed; when the type tag is not in [msgtypes], the pass
    prints its line, changes nothing, and the loop goes on with the next
    message; when the message of a known tag does not decode, the pass prints
    the error and [recv] returns it.  In the two fatal cases what is read
    afterwards plays no part. *)
Theorem recv_decode_faults
    (w : World) (data : string) (reads : list (error + string)) :
  (∀ err, json_Unmarshal_BaseMsg data = inl err →
     Gateway_recv w (inr data :: reads) = (w, [], ReturnErr err))
  ∧ (∀ base, json_Unmarshal_BaseMsg data = inr base →
       msgtypes !! base_Type base = None →
       let here :=
         json_log w "<" data ++ [Printf "Unknown message type received!\n" None] in
       recv_pass w (inr data) = (w, here, Continue)
       ∧ Gateway_recv w (inr data :: reads)
         = (let '(w', more, end_) := Gateway_recv w reads in
            (w', here ++ more, end_)))
  ∧ (∀ base typeFunc err, json_Unmarshal_BaseMsg data = inr base →
       msgtypes !! base_Type base = Some typeFunc →
       json_Unmarshal data (typeFunc ()) = inl err →
       Gateway_recv w (inr data :: reads)
       = (w, json_log w "<" data ++ [Printf "json.Unmarshal: %s\n" (Some err)],
          ReturnErr err)).
Proof.
  split_and!.
  - intros err Hb. rewrite Gateway_recv_cons. unfold recv_pass. by rewrite Hb.
  - intros base Hb Ht here.
    assert (recv_pass w (inr data) = (w, here, Continue)) as Hpass
      by (unfold recv_pass; by rewrite Hb, Ht).
    split; [done|]. by rewrite Gateway_recv_cons, Hpass.
  - intros base typeFunc err Hb Ht Hm. rewrite Gateway_recv_cons.
    unfold recv_pass. by rewrite Hb, Ht, Hm.
Qed.

(** C3, as the code has it: a decoded message that names a transaction which
    is not marked used, and for which no channel is registered, ends [recv]
    with the error [null transaction].  A push (no transaction id, or one
    marked used) that carries a handle id other than zero, and whose session is
    not in [Sessions] or whose handle is not in the [Handles] of that session,
    has one line printed about it, is handed to nobody, changes nothing, and
    the loop goes on with the next message.  A push whose handle id is zero is
    dropped without that line. *)
Theorem recv_missing_targets
    (w : World) (data : string) (base : BaseMsg) (typeFunc : () → Msg)
    (msg : Msg) (reads : list (error + string)) :
  json_Unmarshal_BaseMsg data = inr base →
  msgtypes !! base_Type base = Some typeFunc →
  json_Unmarshal data (typeFunc ()) = inr msg →
  let log := json_log w "<" data in
  let goes_on (here : list Effect) :=
    recv_pass w (inr data) = (w, here, Continue)
    ∧ Gateway_recv w (inr data :: reads)
      = (let '(w', more, end_) := Gateway_recv w reads in
         (w', here ++ more, end_)) in
  (base_ID base ≠ "" →
   transactionUsed w base = false →
   transactions (gateway w) !! xid_FromString (base_ID base) = None →
   ∃ w', Gateway_recv w (inr data :: reads)
         = (w', log, ReturnErr (Errorf "null transaction")))
  ∧ ((base_ID base = "" ∨ transactionUsed w base = true) →
     (base_Handle base ≠ 0%N →
      Sessions (gateway w) !! base_Session base = None →
      goes_on (log ++ [Printf "Unable to deliver message. Session gone?\n" None]))
     ∧ (∀ sp session,
          base_Handle base ≠ 0%N →
          Sessions (gateway w) !! base_Session base = Some sp →
          sessions w !! sp = Some session →
          Session_Handles session !! base_Handle base = None →
          goes_on (log ++ [Printf "Unable to deliver message. Handle gone?\n" None]))
     ∧ (base_Handle base = 0%N → goes_on log)).
Proof.
  intros Hb Ht Hm log goes_on.
  assert (∀ here, recv_pass w (inr data) = (w, here, Continue) → goes_on here)
    as Hgo.
  { intros here Hpass. split; [done|]. by rewrite Gateway_recv_cons, Hpass. }
  pose proof (recv_pass_decoded w _ _ _ _ Hb Ht Hm) as Hpass.
  split.
  - intros Hid Hused Hnone. rewrite Gateway_recv_cons, Hpass, Hused.
    rewrite bool_decide_eq_false_2 by done. cbn [orb].
    unfold recv_reply. rewrite Hnone. eauto.
  - intros Hpush.
    replace (bool_decide (base_ID base = "") || transactionUsed w base)
      with true in Hpass
      by (destruct Hpush as [Hid | ->];
          [by rewrite bool_decide_eq_true_2 | by rewrite orb_true_r]).
    unfold recv_event in Hpass. split_and!.
    + intros Hh Hs. apply Hgo. by rewrite Hpass, decide_False, Hs.
    + intros sp session Hh Hs Hsp Hhp. apply Hgo.
      by rewrite Hpass, decide_False, Hs, Hsp, Hhp.
    + intros Hh. apply Hgo. by rewrite Hpass, decide_True.
Qed.

(** *** What holds of every world *)

Lemma wf_Connect secret : wf (Connect secret).
Proof. split; intros ??; simpl; by rewrite ?lookup_empty, ?lookup_nil. Qed.

Lemma wf_after_send w : wf w → wf (after_send w).
Proof.
  intros [Ht Hs Hh]. split; simpl.
  - intros id ch [[<- <-] | [_ Hold]]%lookup_insert_Some.
    + split; [by apply list_lookup_middle|]. exists (issued w). split; [lia|done].
    + destruct (Ht _ _ Hold) as (? & k & ? & ->).
      split; [by apply lookup_app_l_Some|]. exists k. split; [lia|done].
  - intros sp session ?%Hs. by apply lookup_app_l_Some.
  - intros hp handle ?%Hh. by apply lookup_app_l_Some.
Qed.

Lemma wf_Create_store w success res err w' :
  Gateway_Create_store w success = Return res err w' → wf w → wf w'.
Proof.
  destruct success as [id|]; [|done]. simpl. intros [= <- <- <-] [Ht Hs Hh].
  split; simpl.
  - intros id' ch [? ?]%Ht. split; [by apply lookup_app_l_Some|done].
  - intros sp session [Hold | [_ Hnew]]%lookup_app_Some.
    + apply lookup_app_l_Some. by eapply Hs.
    + destruct (sp - length (sessions w)); simplify_eq/=.
      by apply list_lookup_middle.
  - intros hp handle ?%Hh. by apply lookup_app_l_Some.
Qed.

Lemma wf_Attach_store w s success res err w' :
  Session_Attach_store w s success = Return res err w' → wf w → wf w'.
Proof.
  destruct success as [id|]; [|done]. simpl.
  destruct (sessions w !! s) as [session|] eqn:Hsession; [|done].
  intros [= <- <- <-] [Ht Hs Hh]. split; simpl.
  - intros id' ch [? ?]%Ht. split; [by apply lookup_app_l_Some|done].
  - intros sp session' [(<- & <- & _) | [_ Hold]]%list_lookup_insert_Some.
    + apply lookup_app_l_Some. unfold with_Handles; simpl. by eapply Hs.
    + apply lookup_app_l_Some. by eapply Hs.
  - intros hp handle [Hold | [_ Hnew]]%lookup_app_Some.
    + apply lookup_app_l_Some. by eapply Hh.
    + destruct (hp - length (handles w)); simplify_eq/=.
      by apply list_lookup_middle.
Qed.

Lemma wf_Destroy_remove w s ack res err w' :
  Session_Destroy_remove w s ack = Return res err w' → wf w → wf w'.
Proof.
  unfold Session_Destroy_remove.
  destruct (sessions w !! s) as [session|]; [|done].
  intros [= <- <- <-] [Ht Hs Hh]. by split.
Qed.

Lemma wf_Detach_remove w h ack res err w' :
  Handle_Detach_remove w h ack = Return res err w' → wf w → wf w'.
Proof.
  unfold Handle_Detach_remove.
  destruct (handles w !! h) as [handle|]; [|done].
  destruct (sessions w !! Handle_session handle) as [session|] eqn:Hsession;
    [|done].
  intros [= <- <- <-] [Ht Hs Hh]. split; simpl; [done| |done].
  intros sp session' [(<- & <- & _) | [_ Hold]]%list_lookup_insert_Some.
  - unfold with_Handles; simpl. by eapply Hs.
  - by eapply Hs.
Qed.

Lemma call_on_wf c w o res err w' :
  call_on c w o = Return res err w' → wf w → wf w'.
Proof.
  intros Hon Hwf.
  destruct c, o as [| |[]];
    first
      [ by (simpl in Hon; simplify_eq)
      | by eapply wf_Create_store, Hwf; exact Hon
      | by eapply wf_Attach_store, Hwf; exact Hon
      | by eapply wf_Destroy_remove, Hwf; exact Hon
      | by eapply wf_Detach_remove, Hwf; exact Hon ].
Qed.

Lemma wf_same_channels w w' :
  transactions (gateway w') = transactions (gateway w) →
  sessions w' = sessions w → handles w' = handles w →
  chans w' = chans w → issued w' = issued w →
  wf w → wf w'.
Proof. intros Ht Hs Hh Hc Hi [? ? ?]. split; by rewrite ?Ht, ?Hs, ?Hh, Hc, ?Hi. Qed.

(** A pass of [recv] changes nothing but the marks. *)
Lemma recv_pass_world w rd w' effects ctl :
  recv_pass w rd = (w', effects, ctl) → w' = w ∨ ∃ id, w' = mark_used id w.
Proof.
  unfold recv_pass, recv_event, recv_reply. intros Hpass.
  repeat case_match; simplify_eq; eauto.
Qed.

Lemma step_wf w w' : step w w' → wf w → wf w'.
Proof.
  intros [c w0 wr s Hs | c w0 o res err w1 Hon | w0 rd w1 effects ctl Hpass | w0 b] Hwf.
  - destruct (call_begin_after_send _ _ _ _ Hs) as (-> & _).
    by apply wf_after_send.
  - by eapply call_on_wf.
  - destruct (recv_pass_world _ _ _ _ _ Hpass) as [-> | [id ->]]; [done|].
    by apply (wf_same_channels w0).
  - by apply (wf_same_channels w0).
Qed.

Lemma reachable_wf w : reachable w → wf w.
Proof.
  intros [secret Hsteps]. revert w Hsteps.
  apply (rtc_ind_r (λ w, wf w)); [apply wf_Connect|].
  intros w w' _ Hstep Hwf. by eapply step_wf.
Qed.

(** *** The hierarchy *)

(** C4: up to its [select] a call leaves the hierarchy alone, and so does a
    call that returns without a reply; the change is made by the part that
    runs once the reply is in, and it is one insertion or one deletion.  [Create] with a Success reply adds a new session whose
    [ID] is the id of the reply, with no handles and a fresh channel, under
    that id in [Sessions]; [Attach] adds a new handle with the id of the reply
    under that id in the [Handles] of its session; [Destroy] with an Ack
    deletes the id of its session from [Sessions]; [Detach] with an Ack
    deletes the id of its handle from the [Handles] of the session of the
    handle.  Nothing else of the hierarchy changes. *)
Theorem confirmed_request_changes_hierarchy_once (w : World) :
  (∀ c wr s, call_begin c w wr = Some s → hierarchy (sent_world s) = hierarchy w)
  ∧ (∀ c o res err w',
       call_on c w o = Return res err w' →
       (∀ msg, o ≠ Received msg) → w' = w)
  ∧ (∀ id, ∃ w',
       let sp := length (sessions w) in
       call_on Create w (Received (SuccessMsg id))
       = Return (Some (RetSession sp)) None w'
       ∧ Sessions (gateway w') = <[id := sp]> (Sessions (gateway w))
       ∧ sessions w' = sessions w ++ [mkSession id ∅ (length (chans w))]
       ∧ handles w' = handles w)
  ∧ (∀ s plugin session id,
       sessions w !! s = Some session →
       ∃ w',
         let hp := length (handles w) in
         call_on (Attach s plugin) w (Received (SuccessMsg id))
         = Return (Some (RetHandle hp)) None w'
         ∧ Sessions (gateway w') = Sessions (gateway w)
         ∧ sessions w'
           = <[s := with_Handles (<[id := hp]> (Session_Handles session)) session]>
               (sessions w)
         ∧ handles w' = handles w ++ [mkHandle id "" "" (length (chans w)) s])
  ∧ (∀ s session,
       sessions w !! s = Some session →
       ∃ w',
         call_on (Destroy s) w (Received AckMsg)
         = Return (Some (RetMsg AckMsg)) None w'
         ∧ Sessions (gateway w') = delete (Session_ID session) (Sessions (gateway w))
         ∧ sessions w' = sessions w
         ∧ handles w' = handles w)
  ∧ (∀ h handle session,
       handles w !! h = Some handle →
       sessions w !! Handle_session handle = Some session →
       ∃ w',
         call_on (Detach h) w (Received AckMsg)
         = Return (Some (RetMsg AckMsg)) None w'
         ∧ Sessions (gateway w') = Sessions (gateway w)
         ∧ sessions w'
           = <[Handle_session handle :=
                 with_Handles (delete (Handle_ID handle) (Session_Handles session))
                              session]> (sessions w)
         ∧ handles w' = handles w).
Proof.
  split_and!.
  - intros c wr s Hs. by eapply call_begin_hierarchy.
  - intros c o res err w' Hon Hnone.
    destruct c, o as [| |msg]; simpl in Hon; simplify_eq; try done;
      by destruct (Hnone msg).
  - intros id. by eexists.
  - intros s plugin session id Hs. eexists. simpl.
    unfold Session_Attach_store. simpl. by rewrite Hs.
  - intros s session Hs. eexists. simpl.
    unfold Session_Destroy_remove. by rewrite Hs.
  - intros h handle session Hh Hs. eexists. simpl.
    unfold Handle_Detach_remove. by rewrite Hh, Hs.
Qed.

(** *** Who is sent to *)

Lemma json_log_prints w prefix data e :
  e ∈ json_log w prefix data → e = Stdout prefix data.
Proof.
  unfold json_log. destruct (LogJsonMessages _); [|by intros ?%elem_of_nil].
  by intros ->%list_elem_of_singleton.
Qed.

Lemma call_begin_effects c w wr s e :
  call_begin c w wr = Some s → e ∈ sent_effects s →
  ∃ data, e = ConnWrite data ∨ e = Stdout ">" data.
Proof.
  intros (req & -> & _)%call_begin_request.
  unfold_send; simpl. destruct (json_Marshal _) as [err|data]; simpl.
  - by intros ?%elem_of_nil.
  - intros [->%json_log_prints | ->%list_elem_of_singleton]%elem_of_app; eauto.
Qed.

(** What [recv] hands on goes to the [Events] of a handle or to the channel
    of a transaction. *)
Lemma recv_pass_targets w rd w' effects ctl ch msg :
  recv_pass w rd = (w', effects, ctl) →
  GoPassMsg ch msg ∈ effects →
  (∃ hp handle, handles w !! hp = Some handle ∧ ch = Handle_Events handle)
  ∨ (∃ id, transactions (gateway w) !! id = Some ch).
Proof.
  unfold recv_pass, recv_event, recv_reply. intros Hpass Hin.
  repeat case_match; simplify_eq;
    repeat match goal with
      | H : _ ∈ [] |- _ => by apply elem_of_nil in H
      | H : _ ∈ _ ++ _ |- _ => apply elem_of_app in H as [H | H]
      | H : _ ∈ json_log _ _ _ |- _ => by apply json_log_prints in H
      | H : _ ∈ [_] |- _ => apply list_elem_of_singleton in H; simplify_eq
      end; eauto.
Qed.

(** C10: in a world the program can be in, no message is ever handed to the
    [Events] of a session.  The calls spawn no [passMsg]; what [recv] hands to
    [passMsg] goes to the [Events] of a handle or to the channel of a
    transaction, neither of which is the [Events] of any session, so no send
    of [passMsg] is on such a channel; a push with no handle id (no
    transaction id, or one marked used) is dropped with no line printed and
    nothing handed on; and all the same [Create] gives each new session a
    channel of capacity 2 as its [Events]. *)
Theorem session_events_get_no_message (w : World) :
  reachable w →
  (∀ c wr s ch msg,
     call_begin c w wr = Some s → GoPassMsg ch msg ∉ sent_effects s)
  ∧ (∀ data base typeFunc msg,
       json_Unmarshal_BaseMsg data = inr base →
       msgtypes !! base_Type base = Some typeFunc →
       json_Unmarshal data (typeFunc ()) = inr msg →
       base_ID base = "" ∨ transactionUsed w base = true →
       base_Handle base = 0%N →
       recv_pass w (inr data) = (w, json_log w "<" data, Continue))
  ∧ (∀ rd w' effects ctl ch msg,
       recv_pass w rd = (w', effects, ctl) →
       GoPassMsg ch msg ∈ effects →
       ((∃ hp handle, handles w !! hp = Some handle ∧ ch = Handle_Events handle)
        ∨ (∃ id, transactions (gateway w) !! id = Some ch))
       ∧ ∀ sp session,
           sessions w !! sp = Some session →
           ch ≠ Session_Events session
           ∧ ∀ reader m,
               passMsg ch msg reader ≠ ChanSend (Session_Events session) m)
  ∧ (∀ id, ∃ w' session,
       call_on Create w (Received (SuccessMsg id))
       = Return (Some (RetSession (length (sessions w)))) None w'
       ∧ sessions w' !! length (sessions w) = Some session
       ∧ chans w !! Session_Events session = None
       ∧ chans w' !! Session_Events session = Some 2).
Proof.
  intros Hwf%reachable_wf. split_and!.
  - intros c wr s ch msg Hs Hin.
    by destruct (call_begin_effects _ _ _ _ _ Hs Hin) as [data [? | ?]].
  - intros data base typeFunc msg Hb Ht Hm Hpush Hh.
    rewrite (recv_pass_decoded _ _ _ _ _ Hb Ht Hm).
    replace (bool_decide (base_ID base = "") || transactionUsed w base)
      with true
      by (destruct Hpush as [Hid | ->];
          [by rewrite bool_decide_eq_true_2 | by rewrite orb_true_r]).
    unfold recv_event. by rewrite decide_True.
  - intros rd w' effects ctl ch msg Hpass Hin.
    pose proof (recv_pass_targets _ _ _ _ _ _ _ Hpass Hin) as Htarget.
    split; [done|]. intros sp session Hsession.
    assert (ch ≠ Session_Events session) as Hne.
    { intros ->. apply (wf_sessions _ Hwf) in Hsession.
      destruct Htarget as [(hp & handle & Hhandle & Heq) | [id Hid]].
      - apply (wf_handles _ Hwf) in Hhandle. congruence.
      - apply (wf_transactions _ Hwf) in Hid as [? _]. congruence. }
    split; [done|]. intros [] m; unfold passMsg; congruence.
  - intros id. do 2 eexists. simpl. split_and!; [done| | |].
    + by apply list_lookup_middle.
    + simpl. apply lookup_ge_None_2. lia.
    + simpl. by apply list_lookup_middle.
Qed.

(** *** Transactions *)

(** The part of a call after its [select] leaves the registry alone. *)
Lemma call_on_registry c w o res err w' :
  call_on c w o = Return res err w' →
  transactions (gateway w') = transactions (gateway w)
  ∧ transactionsUsed (gateway w') = transactionsUsed (gateway w)
  ∧ issued w' = issued w.
Proof.
  intros Hon.
  destruct c, o as [| |[]]; simpl in Hon;
    unfold Gateway_Create_store, Session_Attach_store, Session_Destroy_remove,
      Handle_Detach_remove in Hon; simpl in Hon;
    repeat case_match; by simplify_eq.
Qed.

(** A transaction whose id [send] issued, and which [recv] has marked, is
    registered and marked in whatever world follows: ids are not issued
    twice and nothing takes a mark away. *)
Definition marked (id : xid) (ch : chan) (w : World) : Prop :=
  transactions (gateway w) !! id = Some ch
  ∧ transactionsUsed (gateway w) !! id = Some true
  ∧ ∃ k, k < issued w ∧ id = xid_New k.

Lemma step_marked id ch w w' :
  (∀ i j, xid_New i = xid_New j → i = j) →
  step w w' → marked id ch w → marked id ch w'.
Proof.
  intros Hinj Hstep (Ht & Hu & k & Hk & ->).
  destruct Hstep as [c w wr s Hs | c w o res err w' Hon
                    | w rd w' effects ctl Hpass | w b].
  - destruct (call_begin_after_send _ _ _ _ Hs) as (-> & _).
    assert (xid_New (issued w) ≠ xid_New k) by (intros ?%Hinj; lia).
    unfold marked; simpl. rewrite !lookup_insert_ne by done.
    split_and!; [done..|]. exists k. split; [lia|done].
  - destruct (call_on_registry _ _ _ _ _ _ Hon) as (Ht' & Hu' & Hi').
    unfold marked. rewrite Ht', Hu', Hi'. eauto.
  - destruct (recv_pass_world _ _ _ _ _ Hpass) as [-> | [id ->]];
      [by unfold marked; eauto|].
    unfold marked; simpl. split_and!; [done| |by eauto].
    destruct (decide (id = xid_New k)) as [-> | ?];
      [by rewrite lookup_insert_eq | by rewrite lookup_insert_ne].
  - unfold marked; simpl. eauto.
Qed.

Lemma steps_marked id ch w w' :
  (∀ i j, xid_New i = xid_New j → i = j) →
  rtc step w w' → marked id ch w → marked id ch w'.
Proof. intros Hinj Hsteps. induction Hsteps; eauto using step_marked. Qed.

Lemma steps_reachable w w' : reachable w → rtc step w w' → reachable w'.
Proof. intros [secret ?] ?. exists secret. by etrans. Qed.

Lemma reachable_Connect secret : reachable (Connect secret).
Proof. by exists secret. Qed.

Lemma reachable_begin c w wr : reachable w → reachable (begin_world c w wr).
Proof.
  intros Hw. unfold begin_world.
  destruct (call_begin c w wr) as [s|] eqn:Hs; [|done].
  eapply steps_reachable; [done|]. by eapply rtc_once, step_begin.
Qed.

Lemma reachable_on c w o : reachable w → reachable (on_world c w o).
Proof.
  intros Hw. unfold on_world.
  destruct (call_on c w o) as [res err w'| |] eqn:Hon; [|done..].
  eapply steps_reachable; [done|]. by eapply rtc_once, step_on.
Qed.

(** C2, as the code has it: when a decoded Event message names a registered
    transaction that is not marked used, [recv] hands the message to the
    channel of the transaction and marks the transaction, which stays
    registered.  In every world that follows the transaction is still
    registered and marked, and a decoded message with the same transaction id
    takes the branch of the pushes: the pass changes nothing, does not return
    an error and hands nothing to the channel of the transaction.  The message
    is handed to the [Events] of the handle its session and handle ids name
    when the handle id is not zero and both are registered; it is dropped when
    the handle id is zero, and printed and dropped when the session or the
    handle is not registered. *)
Theorem event_reply_marks_transaction
    (w : World) (data : string) (base : BaseMsg) (typeFunc : () → Msg)
    (plugindata jsep : string) (ch : chan) :
  (∀ i j, xid_New i = xid_New j → i = j) →
  reachable w →
  json_Unmarshal_BaseMsg data = inr base →
  msgtypes !! base_Type base = Some typeFunc →
  json_Unmarshal data (typeFunc ()) = inr (EventMsg plugindata jsep) →
  base_ID base ≠ "" →
  transactionUsed w base = false →
  transactions (gateway w) !! xid_FromString (base_ID base) = Some ch →
  let id := xid_FromString (base_ID base) in
  recv_pass w (inr data)
  = (mark_used id w,
     json_log w "<" data ++ [GoPassMsg ch (EventMsg plugindata jsep)],
     Continue)
  ∧ ∀ w2,
      rtc step (mark_used id w) w2 →
      transactions (gateway w2) !! id = Some ch
      ∧ transactionsUsed (gateway w2) !! id = Some true
      ∧ ∀ data' base' typeFunc' msg',
          json_Unmarshal_BaseMsg data' = inr base' →
          msgtypes !! base_Type base' = Some typeFunc' →
          json_Unmarshal data' (typeFunc' ()) = inr msg' →
          base_ID base' = base_ID base →
          let log := json_log w2 "<" data' in
          recv_pass w2 (inr data') = recv_event w2 base' msg' log
          ∧ (∀ w3 effects ctl,
               recv_pass w2 (inr data') = (w3, effects, ctl) →
               w3 = w2 ∧ (∀ err, ctl ≠ ReturnErr err)
               ∧ GoPassMsg ch msg' ∉ effects)
          ∧ (∀ sp session hp handle,
               base_Handle base' ≠ 0%N →
               Sessions (gateway w2) !! base_Session base' = Some sp →
               sessions w2 !! sp = Some session →
               Session_Handles session !! base_Handle base' = Some hp →
               handles w2 !! hp = Some handle →
               recv_pass w2 (inr data')
               = (w2, log ++ [GoPassMsg (Handle_Events handle) msg'], Continue))
          ∧ (base_Handle base' = 0%N →
             recv_pass w2 (inr data') = (w2, log, Continue))
          ∧ (base_Handle base' ≠ 0%N →
             Sessions (gateway w2) !! base_Session base' = None →
             recv_pass w2 (inr data')
             = (w2,
                log ++ [Printf "Unable to deliver message. Session gone?\n" None],
                Continue))
          ∧ (∀ sp session,
               base_Handle base' ≠ 0%N →
               Sessions (gateway w2) !! base_Session base' = Some sp →
               sessions w2 !! sp = Some session →
               Session_Handles session !! base_Handle base' = None →
               recv_pass w2 (inr data')
               = (w2,
                  log ++ [Printf "Unable to deliver message. Handle gone?\n" None],
                  Continue)).
Proof.
  intros Hinj Hreach Hb Ht Hm Hid Hused Hch id.
  assert (recv_pass w (inr data)
          = (mark_used id w,
             json_log w "<" data ++ [GoPassMsg ch (EventMsg plugindata jsep)],
             Continue)) as Hpass.
  { rewrite (recv_pass_decoded _ _ _ _ _ Hb Ht Hm), Hused.
    rewrite bool_decide_eq_false_2 by done. cbn [orb].
    unfold recv_reply. by rewrite Hch. }
  split; [done|]. intros w2 Hsteps.
  assert (marked id ch (mark_used id w)) as Hmarked.
  { destruct (wf_transactions _ (reachable_wf _ Hreach) _ _ Hch) as [_ Hk].
    split_and!; [done|by simpl; rewrite lookup_insert_eq|done]. }
  apply (steps_marked _ _ _ _ Hinj Hsteps) in Hmarked as (Ht2 & Hu2 & _).
  assert (wf w2) as Hwf2.
  { apply reachable_wf. eapply steps_reachable; [|done].
    eapply steps_reachable; [done|]. eapply rtc_once, step_recv, Hpass. }
  split_and!; [done..|].
  intros data' base' typeFunc' msg' Hb' Ht' Hm' Hsame log. subst log.
  assert (recv_pass w2 (inr data')
          = recv_event w2 base' msg' (json_log w2 "<" data')) as Hpass'.
  { rewrite (recv_pass_decoded _ _ _ _ _ Hb' Ht' Hm').
    unfold transactionUsed. rewrite Hsame, decide_True by done.
    fold id. rewrite Hu2. by rewrite orb_true_r. }
  split_and!; [done| | | | |].
  - intros w3 effects ctl. rewrite Hpass'. unfold recv_event. intros Hev.
    repeat case_match; simplify_eq; (split_and!; [done..|]);
      intros Hin;
      repeat match goal with
        | H : _ ∈ _ ++ _ |- _ => apply elem_of_app in H as [H | H]
        | H : _ ∈ json_log _ _ _ |- _ => by apply json_log_prints in H
        | H : _ ∈ [_] |- _ => apply list_elem_of_singleton in H; simplify_eq
        end.
    match goal with
    | H : handles _ !! _ = Some _ |- _ => apply (wf_handles _ Hwf2) in H
    end.
    apply (wf_transactions _ Hwf2) in Ht2 as [? _]. congruence.
  - intros sp session hp handle Hh Hs Hsp Hhp Hhandle.
    rewrite Hpass'. unfold recv_event.
    by rewrite decide_False, Hs, Hsp, Hhp, Hhandle.
  - intros Hh. rewrite Hpass'. unfold recv_event. by rewrite decide_True.
  - intros Hh Hs. rewrite Hpass'. unfold recv_event.
    by rewrite decide_False, Hs.
  - intros sp session Hh Hs Hsp Hhp. rewrite Hpass'. unfold recv_event.
    by rewrite decide_False, Hs, Hsp, Hhp.
Qed.

(** *** Requests on the wire *)

Lemma Gateway_send_parts w msg ch wr :
  let r := Gateway_send_register w msg ch in
  let o := Gateway_send_write r.2 r.1.2 wr in
  Gateway_send w msg ch wr = mkSent r.2 ch r.1.1 r.1.2 o.1 o.2.
Proof.
  unfold_send; simpl. by destruct (json_Marshal _).
Qed.

Lemma issued_id_is_new w :
  (∀ i j, xid_New i = xid_New j → i = j) →
  wf w →
  transactions (gateway w) !! xid_New (issued w) = None
  ∧ ∀ k, k < issued w → xid_New k ≠ xid_New (issued w).
Proof.
  intros Hinj Hwf. split.
  - destruct (transactions _ !! _) as [ch|] eqn:Hch; [|done].
    destruct (wf_transactions _ Hwf _ _ Hch) as (_ & k & Hk & ?%Hinj). lia.
  - intros k Hk ?%Hinj. lia.
Qed.

(** C9: a call draws from [generateTransactionId] an id that was not issued
    before and is not registered; [send] writes its text under [transaction]
    in the envelope, registers the channel of the call under it, not marked
    used, and only then marshals the envelope and writes it to the
    connection.  The envelope has [apisecret] exactly when the secret of the
    gateway is not empty, and then it is that secret; a call made on a session
    or on a handle has the [ID] of the session under [session_id], and a call
    made on a handle has the [ID] of the handle under [handle_id]. *)
Theorem send_fills_the_envelope
    (c : Call) (w : World) (wr : option error) (s : Sent) :
  (∀ i j, xid_New i = xid_New j → i = j) →
  reachable w →
  call_begin c w wr = Some s →
  let guid := xid_New (issued w) in
  let secret := apiSecret (gateway w) in
  (sent_guid s = guid
   ∧ transactions (gateway w) !! guid = None
   ∧ ∀ k, k < issued w → xid_New k ≠ guid)
  ∧ sent_msg s !! "transaction" = Some (VString (xid_String guid))
  ∧ (∃ w1 req,
       Gateway_send_register w1 req (sent_chan s)
       = (guid, sent_msg s, sent_world s)
       ∧ (sent_effects s, sent_err s)
         = Gateway_send_write (sent_world s) (sent_msg s) wr)
  ∧ transactions (gateway (sent_world s)) !! guid = Some (sent_chan s)
  ∧ transactionsUsed (gateway (sent_world s)) !! guid = Some false
  ∧ (∀ data, json_Marshal (sent_msg s) = inr data →
       sent_effects s = json_log (sent_world s) ">" data ++ [ConnWrite data]
       ∧ sent_err s = wr)
  ∧ sent_msg s !! "apisecret"
    = (if decide (secret ≠ "") then Some (VString secret) else None)
  ∧ (∀ sp session,
       call_session c w = Some sp → sessions w !! sp = Some session →
       sent_msg s !! "session_id" = Some (VUint (Session_ID session)))
  ∧ (∀ hp handle,
       call_handle c = Some hp → handles w !! hp = Some handle →
       sent_msg s !! "handle_id" = Some (VUint (Handle_ID handle))).
Proof.
  intros Hinj Hwf%reachable_wf Hs guid secret.
  destruct (call_begin_after_send _ _ _ _ Hs) as (Hw & Hch & Hguid).
  destruct (call_begin_registered _ _ _ _ Hs) as (Hreg & Hused).
  rewrite Hguid in Hreg, Hused.
  destruct (issued_id_is_new w Hinj Hwf) as (Hnew & Hfresh).
  destruct (call_begin_request _ _ _ _ Hs) as (req & -> & Hsecret & Hsid & Hhid).
  clear Hs Hw Hch Hguid Hreg Hused.
  rewrite Gateway_send_parts; cbv zeta.
  unfold Gateway_send_register, generateTransactionId; simpl.
  split_and!; try done.
  - by case_decide; simplify_map_eq.
  - exists (make_chan 0 w).2, req. split; [reflexivity|].
    by destruct (Gateway_send_write _ _ _).
  - by rewrite lookup_insert_eq.
  - by rewrite lookup_insert_eq.
  - intros data Hdata. unfold Gateway_send_write at 1 2. by rewrite Hdata.
  - subst secret. by case_decide; simplify_map_eq.
  - intros sp session Hsp Hsession. specialize (Hsid _ _ Hsp Hsession).
    by case_decide; simplify_map_eq.
  - intros hp handle Hhp Hhandle. specialize (Hhid _ _ Hhp Hhandle).
    by case_decide; simplify_map_eq.
Qed.

(** ** The rest of the program *)

(** *** The keep-alive loops *)

(** What the [select] of a loop on a ticker takes: the context is done, or
    the ticker fires; [wr] is what [conn.Write] then returns. *)
Inductive Tick : Type :=
  | Cancelled (err : error)
  | Ticked (wr : option error).

(** A frame written to the connection: its message type and its payload. *)
Record Frame : Type := mkFrame {
  frame_type : Z;
  frame_data : string;
}.

(** [Gateway.ping]: the frames it hands to [conn.Write], the failing one
    included, and the error it returns; [None] is a loop blocked in its
    [select]. *)
Fixpoint Gateway_ping (ticks : list Tick) : list Frame * option error :=
  match ticks with
  | [] => ([], None)
  | Cancelled err :: _ => ([], Some err)
  | Ticked wr :: ticks =>
      match wr with
      | Some err => ([mkFrame pingMessage ""], Some err)
      | None =>
          let '(frames, end_) := Gateway_ping ticks in
          (mkFrame pingMessage "" :: frames, end_)
      end
  end.

(** What the [select] of [KeepAliveSender] takes: the context is done, or the
    ticker fires and [KeepAlive] is called; [wr] is what [conn.Write] returns
    to it and [o] the case its [select] takes. *)
Inductive Beat : Type :=
  | Stopped (err : error)
  | Beaten (wr : option error) (o : Selected).

(** How far a loop has come: still in its [select], returned, or in a [nil]
    dereference. *)
Inductive Ended : Type :=
  | Running
  | Returned (err : error)
  | Panicked.

(** [Session.KeepAliveSender], no other goroutine running in between. *)
Fixpoint Session_KeepAliveSender
    (w : World) (session : sptr) (beats : list Beat)
  : World * list Effect * Ended :=
  match beats with
  | [] => (w, [], Running)
  | Stopped err :: _ => (w, [], Returned err)
  | Beaten wr o :: beats =>
      match Session_KeepAlive_begin w session wr with
      | None => (w, [], Panicked)
      | Some s =>
          match sent_err s with
          | Some err => (sent_world s, sent_effects s, Returned err)
          | None =>
              match Session_KeepAlive_on (sent_world s) o with
              | Return _ (Some err) w => (w, sent_effects s, Returned err)
              | Return _ None w =>
                  let '(w, more, end_) := Session_KeepAliveSender w session beats in
                  (w, sent_effects s ++ more, end_)
              | _ => (sent_world s, sent_effects s, Panicked)
              end
          end
      end
  end.

(** *** Pointers and channels of a world the program can be in *)

(** Every pointer stored in the hierarchy points into its heap, and no
    channel serves two handles, two sessions or two transactions. *)
Record sound (w : World) : Prop := mk_sound {
  sound_Sessions : ∀ id sp,
    Sessions (gateway w) !! id = Some sp → sp < length (sessions w);
  sound_Handles : ∀ sp session id hp,
    sessions w !! sp = Some session →
    Session_Handles session !! id = Some hp → hp < length (handles w);
  sound_session : ∀ hp handle,
    handles w !! hp = Some handle → Handle_session handle < length (sessions w);
  sound_handle_Events : ∀ hp hp' handle handle',
    handles w !! hp = Some handle → handles w !! hp' = Some handle' →
    Handle_Events handle = Handle_Events handle' → hp = hp';
  sound_session_Events : ∀ sp sp' session session',
    sessions w !! sp = Some session → sessions w !! sp' = Some session' →
    Session_Events session = Session_Events session' → sp = sp';
  sound_transactions : ∀ id id' ch,
    transactions (gateway w) !! id = Some ch →
    transactions (gateway w) !! id' = Some ch → id = id';
}.

(** The session or handle a call is made on is one the program has handed
    out. *)
Definition held (c : Call) (w : World) : Prop :=
  match c with
  | Info | Create => True
  | Attach s _ | KeepAlive s | Destroy s => s < length (sessions w)
  | Request h _ | Message h _ _ | Trickle h _ | TrickleMany h _ | Detach h =>
      h < length (handles w)
  end.

(** ** More properties *)

(** *** The calls that store nothing *)

(** X1: [Info], [KeepAlive], [Request], [Message], [Trickle] and
    [TrickleMany] return from their [select] with the world they found,
    whatever case it takes, and on the reply they wait for they return that
    very message and no error. *)
Theorem plain_calls_leave_the_world (c : Call) (w : World) :
  stores c = false →
  (∀ o res err w', call_on c w o = Return res err w' → w' = w)
  ∧ (∀ msg, expects c msg = true →
       call_on c w (Received msg) = Return (Some (RetMsg msg)) None w).
Proof.
  intros Hst. split.
  - intros o res err w' Hon.
    destruct c; try discriminate Hst; destruct o as [| |[]];
      simpl in Hon; by simplify_eq.
  - intros msg Hex.
    destruct c; try discriminate Hst; by destruct msg.
Qed.

(** *** When [send] fails *)

(** X2: when [send] returns an error the call returns it at once, whatever
    would have come on its channel.  The hierarchy is untouched, but the
    transaction has been registered all the same and stays so.  Either the
    envelope could not be marshalled, and then nothing was written to the
    connection, or it was written and the error is the one of
    [conn.Write]. *)
Theorem failed_send_is_returned_at_once
    (c : Call) (w : World) (wr : option error) (s : Sent) (err : error)
    (rounds : list Selected) :
  call_begin c w wr = Some s →
  sent_err s = Some err →
  call c w wr rounds = Some (Return None (Some err) (sent_world s))
  ∧ hierarchy (sent_world s) = hierarchy w
  ∧ transactions (gateway (sent_world s)) !! sent_guid s = Some (sent_chan s)
  ∧ ((json_Marshal (sent_msg s) = inl err ∧ sent_effects s = [])
     ∨ (∃ data, json_Marshal (sent_msg s) = inr data ∧ wr = Some err
                ∧ sent_effects s
                  = json_log (sent_world s) ">" data ++ [ConnWrite data])).
Proof.
  intros Hs Herr.
  split_and!.
  - unfold call. by rewrite Hs, Herr.
  - by eapply call_begin_hierarchy.
  - by eapply call_begin_registered.
  - destruct (call_begin_request _ _ _ _ Hs) as (req & -> & _).
    revert Herr. rewrite Gateway_send_parts; cbv zeta.
    cbn [sent_err sent_msg sent_effects sent_world].
    unfold Gateway_send_write.
    destruct (json_Marshal _) as [e|data]; simpl; intros ?; simplify_eq; eauto.
Qed.

(** *** The three cases of the [select] *)

Lemma ready_cancel_only (d : Z) (p : Pending) (t : Z) (e : error) :
  cancel p = Some (t, e) →
  (t < d)%Z →
  (∀ t' m, reply p = Some (t', m) → (t < t')%Z) →
  ready d p = [CtxDone e].
Proof.
  intros Hc Hd Hr. unfold ready, earliest.
  destruct p as [[[tr m]|] [[tc e']|]]; cbn [reply cancel] in *; simplify_eq;
    try specialize (Hr _ _ eq_refl);
    repeat match goal with
      | |- context [Z.min d t] => rewrite (Z.min_r d t) by lia
      | |- context [Z.min t ?b] => rewrite (Z.min_l t b) by lia
      end;
    rewrite Z.eqb_refl;
    repeat match goal with
      | |- context [(?a =? ?b)%Z] =>
          destruct (Z.eqb_spec a b); [lia|]
      end; done.
Qed.

Lemma ready_reply_only (d : Z) (p : Pending) (t : Z) (m : Msg) :
  reply p = Some (t, m) →
  (t < d)%Z →
  (∀ t' e, cancel p = Some (t', e) → (t < t')%Z) →
  ready d p = [Received m].
Proof.
  intros Hr Hd Hc. unfold ready, earliest.
  destruct p as [[[tr m']|] [[tc e]|]]; cbn [reply cancel] in *; simplify_eq;
    try specialize (Hc _ _ eq_refl);
    repeat match goal with
      | |- context [Z.min (Z.min ?a ?b) t] =>
          rewrite (Z.min_r (Z.min a b) t) by lia
      | |- context [Z.min d t] => rewrite (Z.min_r d t) by lia
      end;
    rewrite Z.eqb_refl;
    repeat match goal with
      | |- context [(?a =? ?b)%Z] =>
          destruct (Z.eqb_spec a b); [lia|]
      end; done.
Qed.

Lemma call_timed_cons c w wr s p pick later :
  call_begin c w wr = Some s →
  sent_err s = None →
  call_timed c w wr ((p, pick) :: later)
  = match call_on c (sent_world s) (await p pick) with
    | GotoGetMessage =>
        call_wait c (sent_world s) (map (λ r, await r.1 r.2) later)
    | out => Some out
    end.
Proof. intros Hs Herr. unfold call_timed, call. by rewrite Hs, Herr. Qed.

(** X3: when the context is cancelled before the timer fires and before a
    reply is there, the call returns the error of the context and nothing
    else; the world is the one [send] left, with the transaction still
    registered. *)
Theorem cancellation_is_returned
    (c : Call) (w : World) (wr : option error) (s : Sent)
    (p : Pending) (pick : nat) (later : list (Pending * nat))
    (t : Z) (e : error) :
  call_begin c w wr = Some s →
  sent_err s = None →
  cancel p = Some (t, e) →
  (t < timeoutDuration)%Z →
  (∀ t' m, reply p = Some (t', m) → (t < t')%Z) →
  call_timed c w wr ((p, pick) :: later)
  = Some (Return None (Some e) (sent_world s))
  ∧ transactions (gateway (sent_world s)) !! sent_guid s = Some (sent_chan s).
Proof.
  intros Hs Herr Hc Hd Hr. split; [|by eapply call_begin_registered].
  rewrite (call_timed_cons _ _ _ _ _ _ _ Hs Herr).
  unfold await, select_. cbv zeta.
  rewrite (ready_cancel_only _ _ _ _ Hc Hd Hr).
  change (length [CtxDone e]) with 1. rewrite Nat.mod_1_r. by destruct c.
Qed.

Lemma await_takes_reply (p : Pending) (pick : nat) (t : Z) (m : Msg) :
  reply p = Some (t, m) →
  (t < timeoutDuration)%Z →
  (∀ t' e, cancel p = Some (t', e) → (t < t')%Z) →
  await p pick = Received m.
Proof.
  intros Hr Hd Hc. unfold await, select_. cbv zeta.
  rewrite (ready_reply_only _ _ _ _ Hr Hd Hc).
  change (length [Received m]) with 1. by rewrite Nat.mod_1_r.
Qed.

(** X4: a call that stores nothing, and whose expected reply is there before
    the timer fires and before the context is cancelled, returns that reply
    and no error, in the world [send] left. *)
Theorem reply_in_time_is_returned
    (c : Call) (w : World) (wr : option error) (s : Sent)
    (p : Pending) (pick : nat) (later : list (Pending * nat))
    (t : Z) (m : Msg) :
  call_begin c w wr = Some s →
  sent_err s = None →
  stores c = false →
  expects c m = true →
  reply p = Some (t, m) →
  (t < timeoutDuration)%Z →
  (∀ t' e, cancel p = Some (t', e) → (t < t')%Z) →
  call_timed c w wr ((p, pick) :: later)
  = Some (Return (Some (RetMsg m)) None (sent_world s)).
Proof.
  intros Hs Herr Hst Hex Hr Hd Hc.
  rewrite (call_timed_cons _ _ _ _ _ _ _ Hs Herr).
  rewrite (await_takes_reply _ _ _ _ Hr Hd Hc).
  destruct (plain_calls_leave_the_world c (sent_world s) Hst) as [_ Hreply].
  by rewrite (Hreply _ Hex).
Qed.

(** *** The registry only grows *)

Lemma step_registry_dom w w' :
  step w w' →
  dom (transactions (gateway w)) ⊆ dom (transactions (gateway w')).
Proof.
  intros [c w0 wr s Hs | c w0 o res err w1 Hon
         | w0 rd w1 effects ctl Hpass | w0 b].
  - destruct (call_begin_after_send _ _ _ _ Hs) as (-> & _).
    simpl. rewrite dom_insert_L. set_solver.
  - by destruct (call_on_registry _ _ _ _ _ _ Hon) as (-> & _).
  - by destruct (recv_pass_world _ _ _ _ _ Hpass) as [-> | [id ->]].
  - done.
Qed.

Lemma step_registry_size w w' :
  (∀ i j, xid_New i = xid_New j → i = j) →
  step w w' → wf w →
  size (transactions (gateway w)) = issued w →
  size (transactions (gateway w')) = issued w'.
Proof.
  intros Hinj Hstep Hwf Hsize.
  destruct Hstep as [c w wr s Hs | c w o res err w' Hon
                    | w rd w' effects ctl Hpass | w b].
  - destruct (call_begin_after_send _ _ _ _ Hs) as (-> & _).
    destruct (issued_id_is_new w Hinj Hwf) as [Hnew _].
    simpl. by rewrite map_size_insert_None, Hsize.
  - by destruct (call_on_registry _ _ _ _ _ _ Hon) as (-> & _ & ->).
  - by destruct (recv_pass_world _ _ _ _ _ Hpass) as [-> | [id ->]].
  - done.
Qed.

Lemma reachable_registry_size :
  (∀ i j, xid_New i = xid_New j → i = j) →
  ∀ w, reachable w → size (transactions (gateway w)) = issued w.
Proof.
  intros Hinj w [secret Hsteps].
  cut (wf w ∧ size (transactions (gateway w)) = issued w); [by intros []|].
  revert w Hsteps.
  apply (rtc_ind_r (λ w, wf w ∧ size (transactions (gateway w)) = issued w)).
  - split; [apply wf_Connect|done].
  - intros w w' _ Hstep [Hwf Hsize].
    split; [by eapply step_wf|by eapply step_registry_size].
Qed.

(** X5: nothing ever takes a transaction out of the registry: an id that is
    registered stays registered whatever the program does next, and in a
    world the program can be in the registry holds one entry for every request
    that was ever sent (answered, timed out, cancelled or failed), given that
    [xid.New] does not issue an id twice. *)
Theorem registry_only_grows (w w' : World) :
  (∀ i j, xid_New i = xid_New j → i = j) →
  reachable w →
  rtc step w w' →
  size (transactions (gateway w)) = issued w
  ∧ size (transactions (gateway w')) = issued w'
  ∧ (issued w ≤ issued w')%nat
  ∧ ∀ id, is_Some (transactions (gateway w) !! id) →
          is_Some (transactions (gateway w') !! id).
Proof.
  intros Hinj Hreach Hsteps.
  pose proof (reachable_registry_size Hinj) as Hsize.
  assert (dom (transactions (gateway w)) ⊆ dom (transactions (gateway w')))
    as Hdom.
  { clear Hreach. induction Hsteps as [|w w1 w2 Hstep _ IH]; [done|].
    etrans; [by apply step_registry_dom|done]. }
  split_and!.
  - by apply Hsize.
  - apply Hsize. by eapply steps_reachable.
  - rewrite <- !Hsize by eauto using steps_reachable.
    rewrite <- !size_dom. by apply subseteq_size.
  - intros id ?%elem_of_dom. apply elem_of_dom. set_solver.
Qed.

(** *** What [recv] touches *)

(** X6: however many messages [recv] reads and however it ends, it leaves
    the hierarchy, the registered channels and the channels themselves as they
    were; all it changes is the marks, and it takes none away. *)
Theorem recv_changes_only_marks
    (w : World) (reads : list (error + string))
    (w' : World) (effects : list Effect) (ctl : Control) :
  Gateway_recv w reads = (w', effects, ctl) →
  hierarchy w' = hierarchy w
  ∧ transactions (gateway w') = transactions (gateway w)
  ∧ chans w' = chans w
  ∧ issued w' = issued w
  ∧ apiSecret (gateway w') = apiSecret (gateway w)
  ∧ ∀ id, transactionsUsed (gateway w) !! id = Some true →
          transactionsUsed (gateway w') !! id = Some true.
Proof.
  revert w w' effects ctl.
  induction reads as [|rd reads IH]; intros w w' effects ctl Hrecv.
  { by simplify_eq/=. }
  rewrite Gateway_recv_cons in Hrecv.
  destruct (recv_pass w rd) as [[w1 effects1] ctl1] eqn:Hpass.
  assert (hierarchy w1 = hierarchy w
          ∧ transactions (gateway w1) = transactions (gateway w)
          ∧ chans w1 = chans w
          ∧ issued w1 = issued w
          ∧ apiSecret (gateway w1) = apiSecret (gateway w)
          ∧ ∀ id, transactionsUsed (gateway w) !! id = Some true →
                  transactionsUsed (gateway w1) !! id = Some true)
    as (Hh & Ht & Hc & Hi & Ha & Hu).
  { destruct (recv_pass_world _ _ _ _ _ Hpass) as [-> | [id ->]]; [done|].
    split_and!; try done. intros id' Hid'. simpl.
    destruct (decide (id = id')) as [-> | ?];
      [by rewrite lookup_insert_eq | by rewrite lookup_insert_ne]. }
  destruct ctl1; [|by injection Hrecv as <- <- <-..].
  destruct (Gateway_recv w1 reads) as [[w2 effects2] ctl2] eqn:Hrest.
  injection Hrecv as <- <- <-.
  destruct (IH _ _ _ _ Hrest) as (Hh' & Ht' & Hc' & Hi' & Ha' & Hu').
  split_and!; [congruence..|eauto].
Qed.

(** X7: [recv] takes its messages one after the other: reading two batches
    is reading the first and, unless that ended the loop, the second from the
    world the first left; what was done before the loop ends is done. *)
Theorem recv_reads_in_order (w : World) (first second : list (error + string)) :
  Gateway_recv w (first ++ second)
  = match Gateway_recv w first with
    | (w1, effects, Continue) =>
        let '(w2, more, end_) := Gateway_recv w1 second in
        (w2, effects ++ more, end_)
    | stopped => stopped
    end.
Proof.
  revert w. induction first as [|rd first IH]; intros w.
  { simpl. by destruct (Gateway_recv w second) as [[??]?]. }
  rewrite <- app_comm_cons, !Gateway_recv_cons.
  destruct (recv_pass w rd) as [[w1 effects1] []]; [|done..].
  rewrite IH.
  destruct (Gateway_recv w1 first) as [[w2 effects2] []]; [|done..].
  destruct (Gateway_recv w2 second) as [[w3 effects3] ctl3].
  by rewrite app_assoc.
Qed.

(** *** Pointers and channels stay sound *)

Lemma sound_Connect secret : sound (Connect secret).
Proof. split; intros *; simpl; by rewrite ?lookup_empty, ?lookup_nil. Qed.

(** A world that differs only in marks, log switch and Sessions entries taken
    away. *)
Lemma sound_fewer_Sessions w w' :
  (∀ id sp, Sessions (gateway w') !! id = Some sp →
            Sessions (gateway w) !! id = Some sp) →
  transactions (gateway w') = transactions (gateway w) →
  sessions w' = sessions w → handles w' = handles w →
  sound w → sound w'.
Proof.
  intros HS Ht Hs Hh [H1 H2 H3 H4 H5 H6].
  split; rewrite ?Ht, ?Hs, ?Hh; eauto.
Qed.

Lemma sound_after_send w : wf w → sound w → sound (after_send w).
Proof.
  intros Hwf [H1 H2 H3 H4 H5 H6]. split; simpl; try done.
  intros id id' ch [[<- <-] | [_ Hold]]%lookup_insert_Some
                   [[<- Heq] | [_ Hold']]%lookup_insert_Some; try done.
  - destruct (wf_transactions _ Hwf _ _ Hold') as [?%lookup_lt_Some _]. lia.
  - destruct (wf_transactions _ Hwf _ _ Hold) as [?%lookup_lt_Some _]. lia.
  - eauto.
Qed.

Lemma sound_Create_store w success res err w' :
  Gateway_Create_store w success = Return res err w' →
  wf w → sound w → sound w'.
Proof.
  destruct success as [id|]; [|done]. simpl.
  intros [= <- <- <-] Hwf [H1 H2 H3 H4 H5 H6]. split; simpl; try done.
  - intros id' sp [[<- <-] | [_ ?%H1]]%lookup_insert_Some;
      rewrite length_app; simpl; lia.
  - intros sp session id' hp [[_ Hold] | [_ <-]]%lookup_snoc_Some; [eauto|].
    simpl. by rewrite lookup_empty.
  - intros hp handle ?%H3. rewrite length_app. lia.
  - intros sp sp' session session'
      [[_ Hold] | [-> <-]]%lookup_snoc_Some
      [[_ Hold'] | [-> <-]]%lookup_snoc_Some; simpl; try done.
    + eauto.
    + intros Heq. apply (wf_sessions _ Hwf), lookup_lt_Some in Hold. lia.
    + intros Heq. apply (wf_sessions _ Hwf), lookup_lt_Some in Hold'. lia.
Qed.

Lemma sound_Attach_store w s success res err w' :
  Session_Attach_store w s success = Return res err w' →
  wf w → sound w → sound w'.
Proof.
  destruct success as [id|]; [|done]. simpl.
  destruct (sessions w !! s) as [session0|] eqn:Hs0; [|done].
  intros [= <- <- <-] Hwf [H1 H2 H3 H4 H5 H6].
  assert (∀ sp session, <[s := with_Handles
                                  (<[id := length (handles w)]>
                                     (Session_Handles session0)) session0]>
                          (sessions w) !! sp = Some session →
          ∃ session1, sessions w !! sp = Some session1
                      ∧ Session_Events session1 = Session_Events session
                      ∧ ∀ id' hp, Session_Handles session !! id' = Some hp →
                          hp = length (handles w)
                          ∨ Session_Handles session1 !! id' = Some hp)
    as Hback.
  { intros sp session [(<- & <- & _) | [_ Hold]]%list_lookup_insert_Some.
    - exists session0. split_and!; [done..|]. simpl.
      intros id' hp [[_ <-] | [_ ?]]%lookup_insert_Some; eauto.
    - exists session. eauto. }
  split; simpl.
  - intros id' sp ?%H1. by rewrite length_insert.
  - intros sp session id' hp (session1 & Hs1 & _ & Hhs)%Hback Hhp.
    rewrite length_app. simpl.
    destruct (Hhs _ _ Hhp) as [-> | ?%(H2 _ _ _ _ Hs1)]; lia.
  - intros hp handle [[_ ?%H3] | [_ <-]]%lookup_snoc_Some;
      rewrite length_insert; [done|]. simpl. by eapply lookup_lt_Some.
  - intros hp hp' handle handle'
      [[_ Hold] | [-> <-]]%lookup_snoc_Some
      [[_ Hold'] | [-> <-]]%lookup_snoc_Some; simpl; try done.
    + eauto.
    + intros Heq. apply (wf_handles _ Hwf), lookup_lt_Some in Hold. lia.
    + intros Heq. apply (wf_handles _ Hwf), lookup_lt_Some in Hold'. lia.
  - intros sp sp' session session'
      (session1 & Hs1 & <- & _)%Hback (session1' & Hs1' & <- & _)%Hback.
    eauto.
  - done.
Qed.

Lemma sound_Destroy_remove w s ack res err w' :
  Session_Destroy_remove w s ack = Return res err w' → sound w → sound w'.
Proof.
  unfold Session_Destroy_remove.
  destruct (sessions w !! s) as [session|]; [|done].
  intros [= <- <- <-]. apply sound_fewer_Sessions; try done.
  intros id sp. simpl. by intros [_ ?]%lookup_delete_Some.
Qed.

Lemma sound_Detach_remove w h ack res err w' :
  Handle_Detach_remove w h ack = Return res err w' → sound w → sound w'.
Proof.
  unfold Handle_Detach_remove.
  destruct (handles w !! h) as [handle|]; [|done].
  destruct (sessions w !! Handle_session handle) as [session0|] eqn:Hs0;
    [|done].
  intros [= <- <- <-] [H1 H2 H3 H4 H5 H6].
  assert (∀ sp session, <[Handle_session handle := with_Handles
                            (delete (Handle_ID handle)
                               (Session_Handles session0)) session0]>
                          (sessions w) !! sp = Some session →
          ∃ session1, sessions w !! sp = Some session1
                      ∧ Session_Events session1 = Session_Events session
                      ∧ ∀ id' hp, Session_Handles session !! id' = Some hp →
                          Session_Handles session1 !! id' = Some hp)
    as Hback.
  { intros sp session [(<- & <- & _) | [_ Hold]]%list_lookup_insert_Some.
    - exists session0. split_and!; [done..|]. simpl.
      by intros id' hp [_ ?]%lookup_delete_Some.
    - exists session. eauto. }
  split; simpl.
  - intros id' sp ?%H1. by rewrite length_insert.
  - intros sp session id' hp (session1 & Hs1 & _ & Hhs)%Hback Hhp. eauto.
  - intros hp handle' ?%H3. by rewrite length_insert.
  - done.
  - intros sp sp' session session'
      (session1 & Hs1 & <- & _)%Hback (session1' & Hs1' & <- & _)%Hback.
    eauto.
  - done.
Qed.

Lemma call_on_sound c w o res err w' :
  call_on c w o = Return res err w' → wf w → sound w → sound w'.
Proof.
  intros Hon Hwf Hsound.
  destruct c, o as [| |[]];
    first
      [ by (simpl in Hon; simplify_eq)
      | by eapply sound_Create_store, Hsound; [exact Hon|]
      | by eapply sound_Attach_store, Hsound; [exact Hon|]
      | by eapply sound_Destroy_remove, Hsound; exact Hon
      | by eapply sound_Detach_remove, Hsound; exact Hon ].
Qed.

Lemma step_sound w w' : step w w' → wf w → sound w → sound w'.
Proof.
  intros [c w0 wr s Hs | c w0 o res err w1 Hon
         | w0 rd w1 effects ctl Hpass | w0 b] Hwf Hsound.
  - destruct (call_begin_after_send _ _ _ _ Hs) as (-> & _).
    by apply sound_after_send.
  - by eapply call_on_sound.
  - destruct (recv_pass_world _ _ _ _ _ Hpass) as [-> | [id ->]]; [done|].
    by apply (sound_fewer_Sessions w0).
  - by apply (sound_fewer_Sessions w0).
Qed.

Lemma reachable_sound w : reachable w → sound w.
Proof.
  intros [secret Hsteps].
  cut (wf w ∧ sound w); [by intros []|]. revert w Hsteps.
  apply (rtc_ind_r (λ w, wf w ∧ sound w)).
  - split; [apply wf_Connect|apply sound_Connect].
  - intros w w' _ Hstep [Hwf Hsound].
    split; [by eapply step_wf|by eapply step_sound].
Qed.

(** *** Moves *)

Lemma steps_begin c w wr : rtc step w (begin_world c w wr).
Proof.
  unfold begin_world. destruct (call_begin c w wr) as [s|] eqn:Hs; [|done].
  by eapply rtc_once, step_begin.
Qed.

Lemma steps_on c w o : rtc step w (on_world c w o).
Proof.
  unfold on_world.
  destruct (call_on c w o) as [res err w'| |] eqn:Hon; [|done..].
  by eapply rtc_once, step_on.
Qed.

Lemma steps_recv w rd : rtc step w (recv_world w rd).
Proof.
  unfold recv_world.
  destruct (recv_pass w rd) as [[w' effects] ctl] eqn:Hpass.
  by eapply rtc_once, step_recv.
Qed.

(** *** No [nil] is dereferenced *)

Lemma recv_event_no_crash w base msg log w' effects ctl :
  sound w → recv_event w base msg log = (w', effects, ctl) → ctl ≠ Crash.
Proof.
  intros [H1 H2 H3 _ _ _]. unfold recv_event. intros Hev.
  repeat case_match; simplify_eq; try done.
  all: repeat match goal with
    | Hs : sessions _ !! _ = Some _, Hh : Session_Handles _ !! _ = Some _ |- _ =>
        apply (H2 _ _ _ _ Hs) in Hh
    | H : Sessions _ !! _ = Some _ |- _ => apply H1 in H
    | H : _ !! _ = None |- _ => apply lookup_ge_None in H
    end; lia.
Qed.

Lemma recv_pass_no_crash w rd w' effects ctl :
  sound w → recv_pass w rd = (w', effects, ctl) → ctl ≠ Crash.
Proof.
  intros Hsound. unfold recv_pass. intros Hpass.
  repeat case_match; simplify_eq; try done.
  - by eapply recv_event_no_crash.
  - unfold recv_reply in *. by repeat case_match; simplify_eq.
Qed.

(** X8: in a world the program can be in, with calls made on sessions and
    handles it has handed out, a [nil] pointer is dereferenced in one place
    only: [Create] and [Attach] panic on a reply that is neither Success nor
    Error.  [send] does not panic, [recv] does not, however much it reads, and
    no other call does, whatever its [select] takes. *)
Theorem only_Create_and_Attach_panic (w : World) :
  reachable w →
  (∀ c wr, held c w → is_Some (call_begin c w wr))
  ∧ (∀ c o, held c w → call_on c w o = Panic →
       ∃ msg, o = Received msg
              ∧ (c = Create ∨ ∃ s plugin, c = Attach s plugin)
              ∧ expects c msg = false ∧ is_ErrorMsg msg = false)
  ∧ (∀ reads w' effects ctl,
       Gateway_recv w reads = (w', effects, ctl) → ctl ≠ Crash).
Proof.
  intros Hreach. pose proof (reachable_sound _ Hreach) as Hsound.
  split_and!.
  - intros c wr Hheld.
    assert (∀ h, h < length (handles w) →
              ∃ handle session, handles w !! h = Some handle
                ∧ sessions w !! Handle_session handle = Some session) as Hh.
    { intros h [handle Hhandle]%lookup_lt_is_Some.
      destruct (lookup_lt_is_Some_2 _ _ (sound_session _ Hsound _ _ Hhandle))
        as [session Hsession]. eauto. }
    destruct c; simpl in Hheld; unfold_begin; simpl;
      first
        [ destruct (Hh _ Hheld) as (handle' & session' & -> & Hs); simpl;
          rewrite Hs; simpl
        | apply lookup_lt_is_Some in Hheld as [session' ->]; simpl
        | idtac ];
      by eexists.
  - intros c o Hheld Hpanic.
    destruct c, o as [| |msg]; try discriminate Hpanic;
      destruct msg; try discriminate Hpanic; simpl in Hheld.
    all: try (by eexists; split_and!; [|left|..]).
    all: try (by eexists; split_and!; [|right; do 2 eexists|..]).
    all: exfalso; simpl in Hpanic;
      unfold Session_Attach_store, Session_Destroy_remove,
        Handle_Detach_remove in Hpanic; simpl in Hpanic.
    all: apply lookup_lt_is_Some in Hheld as [obj Hheld];
      rewrite Hheld in Hpanic; try done.
    all: destruct (lookup_lt_is_Some_2 _ _ (sound_session _ Hsound _ _ Hheld))
        as [sess Hs]; by rewrite Hs in Hpanic.
  - intros reads. clear Hreach. revert w Hsound.
    induction reads as [|rd reads IH]; intros w Hsound w' effects ctl Hrecv.
    { by simplify_eq/=. }
    rewrite Gateway_recv_cons in Hrecv.
    destruct (recv_pass w rd) as [[w1 effects1] ctl1] eqn:Hpass.
    pose proof (recv_pass_no_crash _ _ _ _ _ Hsound Hpass) as Hno.
    assert (sound w1) as Hsound1.
    { destruct (recv_pass_world _ _ _ _ _ Hpass) as [-> | [id ->]]; [done|].
      by apply (sound_fewer_Sessions w). }
    destruct ctl1; [|by injection Hrecv as <- <- <-..].
    destruct (Gateway_recv w1 reads) as [[w2 effects2] ctl2] eqn:Hrest.
    injection Hrecv as <- <- <-. by eapply IH.
Qed.

(** *** Deliveries do not cross *)

(** X9: in a world the program can be in, a push that names a registered
    handle of a registered session is handed to the [Events] of that handle
    and changes nothing; that channel is the [Events] of no other handle and
    the channel of no transaction.  A reply to a registered transaction that is
    not marked is handed to the channel of that transaction, which is the
    channel of no other transaction and the [Events] of no handle; unless the
    reply is an Event the world stays as it was, so that the next reply with
    that id takes the same way. *)
Theorem deliveries_do_not_cross
    (w : World) (data : string) (base : BaseMsg) (typeFunc : () → Msg)
    (msg : Msg) :
  reachable w →
  json_Unmarshal_BaseMsg data = inr base →
  msgtypes !! base_Type base = Some typeFunc →
  json_Unmarshal data (typeFunc ()) = inr msg →
  let log := json_log w "<" data in
  (∀ sp session hp handle,
     base_ID base = "" ∨ transactionUsed w base = true →
     base_Handle base ≠ 0%N →
     Sessions (gateway w) !! base_Session base = Some sp →
     sessions w !! sp = Some session →
     Session_Handles session !! base_Handle base = Some hp →
     handles w !! hp = Some handle →
     recv_pass w (inr data)
     = (w, log ++ [GoPassMsg (Handle_Events handle) msg], Continue)
     ∧ (∀ hp' handle', handles w !! hp' = Some handle' → hp' ≠ hp →
          Handle_Events handle' ≠ Handle_Events handle)
     ∧ (∀ id ch, transactions (gateway w) !! id = Some ch →
          ch ≠ Handle_Events handle))
  ∧ (∀ ch,
       base_ID base ≠ "" →
       transactionUsed w base = false →
       transactions (gateway w) !! xid_FromString (base_ID base) = Some ch →
       recv_pass w (inr data)
       = (match msg with
          | EventMsg _ _ => mark_used (xid_FromString (base_ID base)) w
          | _ => w
          end,
          log ++ [GoPassMsg ch msg], Continue)
       ∧ (∀ id', transactions (gateway w) !! id' = Some ch →
            id' = xid_FromString (base_ID base))
       ∧ (∀ hp handle, handles w !! hp = Some handle →
            Handle_Events handle ≠ ch)).
Proof.
  intros Hreach Hb Ht Hm log.
  pose proof (reachable_wf _ Hreach) as Hwf.
  pose proof (reachable_sound _ Hreach) as Hsound.
  pose proof (recv_pass_decoded w _ _ _ _ Hb Ht Hm) as Hpass.
  split.
  - intros sp session hp handle Hpush Hh Hs Hsp Hhp Hhandle.
    replace (bool_decide (base_ID base = "") || transactionUsed w base)
      with true in Hpass
      by (destruct Hpush as [Hid | ->];
          [by rewrite bool_decide_eq_true_2 | by rewrite orb_true_r]).
    split_and!.
    + rewrite Hpass. unfold recv_event.
      by rewrite decide_False, Hs, Hsp, Hhp, Hhandle.
    + intros hp' handle' Hhandle' Hne Heq.
      by destruct (Hne (sound_handle_Events _ Hsound _ _ _ _ Hhandle' Hhandle Heq)).
    + intros id ch [Hch _]%(wf_transactions _ Hwf) ->.
      apply (wf_handles _ Hwf) in Hhandle. congruence.
  - intros ch Hid Hused Hch. split_and!.
    + rewrite Hpass, Hused, bool_decide_eq_false_2 by done. cbn [orb].
      unfold recv_reply. by rewrite Hch.
    + intros id' Hid'. by eapply (sound_transactions _ Hsound).
    + intros hp handle Hhandle%(wf_handles _ Hwf) Heq.
      destruct (wf_transactions _ Hwf _ _ Hch) as [? _]. congruence.
Qed.

(** *** Storing and removing *)


(** X11: [Attach] answered with Success and then [Detach] of the handle it
    returned, answered with an Ack, leave the [Handles] of the session without
    the id of the reply: as they were when the id was not registered before,
    and without the handle that was registered under that id otherwise.
    [Sessions] is as it was. *)
Theorem Attach_then_Detach
    (w : World) (s : sptr) (session : Session) (plugin : string) (id : N) :
  sessions w !! s = Some session →
  ∃ w1 w2,
    call_on (Attach s plugin) w (Received (SuccessMsg id))
    = Return (Some (RetHandle (length (handles w)))) None w1
    ∧ call_on (Detach (length (handles w))) w1 (Received AckMsg)
      = Return (Some (RetMsg AckMsg)) None w2
    ∧ sessions w2
      = <[s := with_Handles (delete id (Session_Handles session)) session]>
          (sessions w)
    ∧ (Session_Handles session !! id = None → sessions w2 = sessions w)
    ∧ Sessions (gateway w2) = Sessions (gateway w).
Proof.
  intros Hs. pose proof (lookup_lt_Some _ _ _ Hs) as Hlt.
  do 2 eexists. split.
  { simpl. unfold Session_Attach_store. simpl. by rewrite Hs. }
  simpl. unfold Handle_Detach_remove. simpl.
  rewrite list_lookup_middle by done. simpl.
  rewrite list_lookup_insert_eq by done.
  split; [reflexivity|]. simpl.
  assert (<[s := with_Handles
                   (delete id (<[id := length (handles w)]>
                                 (Session_Handles session)))
                   (with_Handles (<[id := length (handles w)]>
                                    (Session_Handles session)) session)]>
            (<[s := with_Handles (<[id := length (handles w)]>
                                    (Session_Handles session)) session]>
               (sessions w))
          = <[s := with_Handles (delete id (Session_Handles session)) session]>
              (sessions w)) as Heq.
  { rewrite list_insert_insert_eq. unfold with_Handles; simpl.
    by rewrite delete_insert_eq. }
  split_and!; [done| |done].
  intros Hnone. rewrite Heq, delete_id by done.
  apply list_insert_id. rewrite Hs. by destruct session.
Qed.

(** X12: once [Detach] has returned on an Ack, a push for its handle (by the
    id of the handle, in the session the handle belongs to) is printed and
    dropped; once [Destroy] has returned on an Ack, so is a push for any handle
    of its session.  Nothing is handed to [passMsg] and the loop goes on. *)
Theorem push_after_teardown_is_dropped
    (w w' : World) (res : option Ret) (err : option error)
    (data : string) (base : BaseMsg) (typeFunc : () → Msg) (msg : Msg) :
  json_Unmarshal_BaseMsg data = inr base →
  msgtypes !! base_Type base = Some typeFunc →
  json_Unmarshal data (typeFunc ()) = inr msg →
  base_ID base = "" ∨ transactionUsed w' base = true →
  base_Handle base ≠ 0%N →
  (∀ h handle,
     handles w !! h = Some handle →
     call_on (Detach h) w (Received AckMsg) = Return res err w' →
     Sessions (gateway w) !! base_Session base = Some (Handle_session handle) →
     base_Handle base = Handle_ID handle →
     recv_pass w' (inr data)
     = (w',
        json_log w' "<" data
          ++ [Printf "Unable to deliver message. Handle gone?\n" None],
        Continue))
  ∧ (∀ s session,
       sessions w !! s = Some session →
       call_on (Destroy s) w (Received AckMsg) = Return res err w' →
       base_Session base = Session_ID session →
       recv_pass w' (inr data)
       = (w',
          json_log w' "<" data
            ++ [Printf "Unable to deliver message. Session gone?\n" None],
          Continue)).
Proof.
  intros Hb Ht Hm Hpush Hh.
  pose proof (recv_pass_decoded w' _ _ _ _ Hb Ht Hm) as Hpass.
  replace (bool_decide (base_ID base = "") || transactionUsed w' base)
    with true in Hpass
    by (destruct Hpush as [Hid | ->];
        [by rewrite bool_decide_eq_true_2 | by rewrite orb_true_r]).
  rewrite Hpass. unfold recv_event. rewrite decide_False by done.
  split.
  - intros h handle Hhandle Hon Hs Hid. simpl in Hon.
    unfold Handle_Detach_remove in Hon. rewrite Hhandle in Hon.
    destruct (sessions w !! Handle_session handle) as [session|] eqn:Hsession;
      [|done].
    injection Hon as <- <- <-. simpl. rewrite Hs.
    rewrite list_lookup_insert_eq by by eapply lookup_lt_Some.
    simpl. by rewrite Hid, lookup_delete_eq.
  - intros s session Hsession Hon Hid. simpl in Hon.
    unfold Session_Destroy_remove in Hon. rewrite Hsession in Hon.
    injection Hon as <- <- <-. simpl. by rewrite Hid, lookup_delete_eq.
Qed.

(** X13: what the four storing calls do with a reply that is neither the one
    they wait for nor an Error.  [Create] and [Attach] panic.  [Destroy] and
    [Detach] remove the entry all the same and return neither a message nor an
    error. *)
Theorem storing_calls_take_any_reply (w : World) (msg : Msg) :
  is_ErrorMsg msg = false →
  (expects Create msg = false →
   call_on Create w (Received msg) = Panic
   ∧ ∀ s plugin, call_on (Attach s plugin) w (Received msg) = Panic)
  ∧ (msg ≠ AckMsg →
     (∀ s session,
        sessions w !! s = Some session →
        ∃ w', call_on (Destroy s) w (Received msg) = Return None None w'
              ∧ Sessions (gateway w')
                = delete (Session_ID session) (Sessions (gateway w))
              ∧ sessions w' = sessions w ∧ handles w' = handles w)
     ∧ (∀ h handle session,
          handles w !! h = Some handle →
          sessions w !! Handle_session handle = Some session →
          ∃ w', call_on (Detach h) w (Received msg) = Return None None w'
                ∧ sessions w'
                  = <[Handle_session handle :=
                        with_Handles
                          (delete (Handle_ID handle) (Session_Handles session))
                          session]> (sessions w)
                ∧ Sessions (gateway w') = Sessions (gateway w)
                ∧ handles w' = handles w)).
Proof.
  intros Herr. split.
  - intros Hex. by destruct msg.
  - intros Hack. split.
    + intros s session Hs. eexists.
      destruct msg; try done; simpl;
        unfold Session_Destroy_remove; by rewrite Hs.
    + intros h handle session Hh Hs. eexists.
      destruct msg; try done; simpl;
        unfold Handle_Detach_remove; by rewrite Hh, Hs.
Qed.

(** *** The keep-alive loops *)

(** X14: [ping] hands one empty frame of type [pingMessage] to [conn.Write]
    for every tick and goes on as long as the writes succeed; it returns the
    error of the context when that is done, with no further write, and the
    error of the first write that fails.  What comes after plays no part. *)
Theorem ping_goes_on_until_an_error
    (n : nat) (err : error) (rest : list Tick) :
  let frame := mkFrame pingMessage "" in
  let ticks := replicate n (Ticked None) in
  Gateway_ping ticks = (replicate n frame, None)
  ∧ Gateway_ping (ticks ++ Cancelled err :: rest)
    = (replicate n frame, Some err)
  ∧ Gateway_ping (ticks ++ Ticked (Some err) :: rest)
    = (replicate (S n) frame, Some err).
Proof.
  intros frame ticks. subst ticks.
  split_and!; induction n as [|n IH]; simpl; try done; by rewrite IH.
Qed.

(** X15: [KeepAliveSender] never changes the hierarchy.  As long as it is
    running every beat so far was a keep-alive that was written and got its
    Ack, and each of them has left one transaction registered; once it has
    returned or panicked, what would have come next plays no part. *)
Theorem KeepAliveSender_runs_on_acks
    (w : World) (session : sptr) (beats : list Beat)
    (w' : World) (effects : list Effect) (end_ : Ended) :
  Session_KeepAliveSender w session beats = (w', effects, end_) →
  hierarchy w' = hierarchy w
  ∧ (end_ = Running →
     issued w' = issued w + length beats
     ∧ Forall (λ b, b = Beaten None (Received AckMsg)) beats)
  ∧ (end_ ≠ Running →
     ∀ more, Session_KeepAliveSender w session (beats ++ more)
             = (w', effects, end_)).
Proof.
  revert w w' effects end_.
  induction beats as [|[err|wr o] beats IH]; intros w w' effects end_ Hrun.
  { simpl in Hrun. injection Hrun as <- <- <-. by split_and!. }
  { simpl in Hrun. injection Hrun as <- <- <-. by split_and!. }
  simpl in *.
  destruct (Session_KeepAlive_begin w session wr) as [s|] eqn:Hs;
    [|injection Hrun as <- <- <-; by split_and!].
  pose proof (call_begin_after_send (KeepAlive session) _ _ _ Hs)
    as (Hw & _ & _).
  assert (sent_err s = None → wr = None) as Hwr.
  { destruct (call_begin_request (KeepAlive session) _ _ _ Hs) as (req & -> & _).
    rewrite Gateway_send_parts. cbv zeta. cbn [sent_err].
    unfold Gateway_send_write. by destruct (json_Marshal _). }
  destruct (sent_err s) as [err|];
    [injection Hrun as <- <- <-; rewrite Hw; by split_and!|].
  destruct o as [| |[]]; simpl in Hrun;
    try (injection Hrun as <- <- <-; rewrite Hw; by split_and!).
  destruct (Session_KeepAliveSender (sent_world s) session beats)
    as [[w2 more] end2] eqn:Hrest.
  injection Hrun as <- <- <-.
  destruct (IH _ _ _ _ Hrest) as (Hh & Hrunning & Hended).
  split_and!.
  - by rewrite Hh, Hw.
  - intros Hend. destruct (Hrunning Hend) as [Hi Hall].
    split; [rewrite Hi, Hw; simpl; lia|].
    constructor; [by rewrite Hwr|done].
  - intros Hend more0. cbn [Session_KeepAlive_on]. by rewrite (Hended Hend).
Qed.

(** *** What a request says *)

(** X16: the envelope of a call names its request under [janus] and carries
    what the call was given: the plugin of [Attach]; the body of [Request] and
    the body and jsep of [Message], each left out when it is [nil]; the
    candidate of [Trickle] and the candidates of [TrickleMany], which are sent
    even when they are [nil]. *)
Theorem envelope_says_what_is_asked
    (c : Call) (w : World) (wr : option error) (s : Sent) :
  call_begin c w wr = Some s →
  let given (v : Value) := if decide (v = VNil) then None else Some v in
  sent_msg s !! "janus" = Some (VString (request_name c))
  ∧ match c with
    | Attach _ plugin => sent_msg s !! "plugin" = Some (VString plugin)
    | Request _ body =>
        sent_msg s !! "body" = given body ∧ sent_msg s !! "jsep" = None
    | Message _ body jsep =>
        sent_msg s !! "body" = given body ∧ sent_msg s !! "jsep" = given jsep
    | Trickle _ candidate => sent_msg s !! "candidate" = Some candidate
    | TrickleMany _ candidates => sent_msg s !! "candidates" = Some candidates
    | _ => sent_msg s !! "body" = None ∧ sent_msg s !! "plugin" = None
    end.
Proof.
  intros Hs given. subst given.
  destruct c; revert Hs; unfold_begin; simpl; intros Hs;
    repeat match type of Hs with
      | context [?l !! ?i] =>
          destruct (l !! i) eqn:?; simpl in Hs; [|discriminate]
      end;
    simplify_eq; rewrite Gateway_send_parts; cbv zeta;
    unfold Gateway_send_register, generateTransactionId; simpl;
    repeat case_decide; simplify_eq; split_and!; by simplify_map_eq.
Qed.

(** X17: a push for a handle that [Attach] has just stored arrives on the
    channel [Attach] made for it: after [Attach] on a registered session,
    answered with Success and an id other than zero, a push that names the
    session and that id is handed to the new channel, the [Events] of the
    handle that [Attach] returned. *)
Theorem push_reaches_the_attached_handle
    (w : World) (s : sptr) (session : Session) (plugin : string) (id : N)
    (data : string) (base : BaseMsg) (typeFunc : () → Msg) (msg : Msg) :
  sessions w !! s = Some session →
  Sessions (gateway w) !! Session_ID session = Some s →
  json_Unmarshal_BaseMsg data = inr base →
  msgtypes !! base_Type base = Some typeFunc →
  json_Unmarshal data (typeFunc ()) = inr msg →
  base_ID base = "" ∨ transactionUsed w base = true →
  base_Session base = Session_ID session →
  base_Handle base = id →
  id ≠ 0%N →
  ∃ w1 handle,
    call_on (Attach s plugin) w (Received (SuccessMsg id))
    = Return (Some (RetHandle (length (handles w)))) None w1
    ∧ handles w1 !! length (handles w) = Some handle
    ∧ Handle_ID handle = id
    ∧ Handle_Events handle = length (chans w)
    ∧ chans w1 !! Handle_Events handle = Some 8
    ∧ recv_pass w1 (inr data)
      = (w1, json_log w1 "<" data ++ [GoPassMsg (Handle_Events handle) msg],
         Continue).
Proof.
  intros Hs HS Hb Ht Hm Hid Hsid Hhid Hne.
  pose proof (lookup_lt_Some _ _ _ Hs) as Hlt.
  do 2 eexists. split.
  { simpl. unfold Session_Attach_store. simpl. by rewrite Hs. }
  split_and!; [by apply list_lookup_middle|done|done
              |by simpl; apply list_lookup_middle|].
  rewrite (recv_pass_decoded _ _ _ _ _ Hb Ht Hm).
  replace (bool_decide (base_ID base = "") || _) with true
    by (destruct Hid as [Hid | Hid];
        [by rewrite bool_decide_eq_true_2
        |unfold transactionUsed in *; simpl; by rewrite Hid, orb_true_r]).
  unfold recv_event. rewrite decide_False by congruence. simpl.
  rewrite Hsid, HS, list_lookup_insert_eq by done. simpl.
  rewrite Hhid, lookup_insert_eq.
  by rewrite list_lookup_middle.
Qed.

End Janus.

(** ** A sample run *)

Module Sample.

(** Stand-ins for the outside: ids are issued 1, 2, 3, ...; the text of an id
    is that many [x]; the JSON of an envelope is stood for by its method; the
    wire carries the handful of messages of the tables below. *)
Definition New (n : nat) : xid := N.of_nat (S n).
Definition Text (id : xid) : string := N.iter id (String.append "x") "".
Definition FromString (s : string) : xid := N.of_nat (String.length s).

Definition Marshal (msg : gmap string Value) : error + string :=
  match msg !! "janus" with
  | Some (VString method) => inr method
  | _ => inl (External "json: unsupported type")
  end.

Definition decoded : list (string * BaseMsg) :=
  [ ("event xxx 5 7", mkBaseMsg "event" "xxx" 5 7);
    ("event xxx 5 0", mkBaseMsg "event" "xxx" 5 0);
    ("event xxx 5 8", mkBaseMsg "event" "xxx" 5 8);
    ("event xxxx 5 7", mkBaseMsg "event" "xxxx" 5 7);
    ("event - 99 0", mkBaseMsg "event" "" 99 0);
    ("event - 99 7", mkBaseMsg "event" "" 99 7);
    ("event - 5 8", mkBaseMsg "event" "" 5 8);
    ("mystery", mkBaseMsg "mystery" "" 0 0);
    ("ack, cut short", mkBaseMsg "ack" "xxx" 5 0) ].

Definition Unmarshal_BaseMsg (data : string) : error + BaseMsg :=
  match list_find (λ e, e.1 = data) decoded with
  | Some (_, (_, base)) => inr base
  | None => inl (External "invalid character")
  end.

Definition types : gmap string (() → Msg) :=
  {[ "success" := λ _, SuccessMsg 0;
     "error" := λ _, ErrorMsg 0 "";
     "ack" := λ _, AckMsg;
     "event" := λ _, EventMsg "" "";
     "info" := λ _, InfoMsg "" ]}.

Definition Unmarshal (data : string) (empty : Msg) : error + Msg :=
  if decide (data = "ack, cut short")
  then inl (External "unexpected end of JSON input")
  else match empty with
       | EventMsg _ _ => inr (EventMsg data "")
       | _ => inr empty
       end.

Definition begin := begin_world New Text Marshal.
Definition pass := recv_pass FromString Unmarshal_BaseMsg types Unmarshal.
Definition recv := Gateway_recv FromString Unmarshal_BaseMsg types Unmarshal.
Definition run := call New Text Marshal.
Definition can_be :=
  reachable New Text FromString Marshal Unmarshal_BaseMsg types Unmarshal.

(** [Connect], [Create] answered with session 5, [Attach] answered with
    handle 7, and a [Message] that has been sent. *)
Definition connected : World := Connect "s3cret".
Definition with_session : World :=
  on_world Create (begin Create connected None) (Received (SuccessMsg 5)).
Definition echotest : Call := Attach 0 "janus.plugin.echotest".
Definition with_handle : World :=
  on_world echotest (begin echotest with_session None) (Received (SuccessMsg 7)).
Definition start : Call := Message 0 (VAny "{request: start}") VNil.
Definition asked : World := begin start with_handle None.
Definition answered : World :=
  recv_world FromString Unmarshal_BaseMsg types Unmarshal asked (inr "event xxx 5 7").
(** Later still, a [KeepAlive] has been sent. *)
Definition later : World := begin (KeepAlive 0) answered None.

Lemma New_inj i j : New i = New j → i = j.
Proof. unfold New. lia. Qed.

Lemma reachable_asked : can_be asked.
Proof.
  apply reachable_begin, reachable_on, reachable_begin, reachable_on,
    reachable_begin, reachable_Connect.
Qed.

(** The witness of C1: [KeepAlive] answered with a Success message. *)
Lemma unexpected_reply_sample :
  expects (KeepAlive 0) (SuccessMsg 5) = false
  ∧ is_ErrorMsg (SuccessMsg 5) = false
  ∧ stores (KeepAlive 0) = false
  ∧ call_on (KeepAlive 0) with_session (Received (SuccessMsg 5))
    = Return None (Some (unexpected "keepalive")) with_session.
Proof.
  split_and!; [reflexivity..|].
  apply (unexpected_reply_is_an_error (KeepAlive 0) with_session (SuccessMsg 5));
    [reflexivity..|discriminate].
Defined.

(** C1 as the specification words it fails for [Message]: an Ack is neither
    the Event that [Message] takes for its success nor an Error, and yet the
    call does not return the error [unexpected]: it goes back to waiting, and
    returns the Event that follows with no error at all. *)
Lemma unexpected_reply_counterexample :
  expects start AckMsg = false
  ∧ is_ErrorMsg AckMsg = false
  ∧ call_on start asked (Received AckMsg) = GotoGetMessage
  ∧ run start with_handle None [Received AckMsg; Received (EventMsg "ok" "")]
    = Some (Return (Some (RetMsg (EventMsg "ok" ""))) None asked).
Proof. split_and!; reflexivity. Qed.

(** The four calls that store behave otherwise again: [Destroy] answered with
    a Success message removes the session and returns neither message nor
    error; [Create] answered with an Ack panics. *)
Example Destroy_answered_with_success :
  ∃ w', call_on (Destroy 0) with_session (Received (SuccessMsg 0))
        = Return None None w'
        ∧ Sessions (gateway with_session) !! 5%N = Some 0
        ∧ Sessions (gateway w') !! 5%N = None.
Proof. eexists. split_and!; reflexivity. Qed.

Example Create_answered_with_ack :
  call_on Create (begin Create connected None) (Received AckMsg) = Panic.
Proof. reflexivity. Qed.

(** The witness of C2: the Event that answers the sample [Message] marks
    its transaction; after one more request the transaction is still marked,
    and the next message with that transaction id goes to the events
    (channel 3) of handle 7 of session 5. *)
Lemma event_reply_marks_transaction_sample :
  can_be asked
  ∧ transactions (gateway asked) !! FromString "xxx" = Some 4
  ∧ transactionUsed FromString asked (mkBaseMsg "event" "xxx" 5 7) = false
  ∧ pass asked (inr "event xxx 5 7")
    = (answered, [GoPassMsg 4 (EventMsg "event xxx 5 7" "")], Continue)
  ∧ transactionsUsed (gateway later) !! FromString "xxx" = Some true
  ∧ pass later (inr "event xxx 5 7")
    = (later, [GoPassMsg 3 (EventMsg "event xxx 5 7" "")], Continue).
Proof.
  split_and!; [apply reachable_asked|reflexivity..| | |].
  all: destruct
    (event_reply_marks_transaction New Text FromString Marshal
       Unmarshal_BaseMsg types Unmarshal asked "event xxx 5 7"
       (mkBaseMsg "event" "xxx" 5 7) (λ _, EventMsg "" "") "event xxx 5 7" "" 4
       New_inj reachable_asked eq_refl eq_refl eq_refl)
    as [Hfirst Hlater]; [discriminate|reflexivity..|].
  1: exact Hfirst.
  all: assert (rtc (step New Text FromString Marshal Unmarshal_BaseMsg types
                      Unmarshal) answered later) as Hsteps
    by (eapply rtc_once, (step_begin _ _ _ _ _ _ _ (KeepAlive 0) answered None);
        reflexivity).
  - destruct (Hlater later Hsteps) as (_ & Hmarked & _).
    exact Hmarked.
  - destruct (Hlater later Hsteps) as (_ & _ & Hpush).
    destruct (Hpush "event xxx 5 7" (mkBaseMsg "event" "xxx" 5 7)
                (λ _, EventMsg "" "") (EventMsg "event xxx 5 7" "")
                eq_refl eq_refl eq_refl eq_refl)
      as (_ & _ & Hhandle & _).
    apply (Hhandle 0 (mkSession 5 {[ 7%N := 0 ]} 1) 0 (mkHandle 7 "" "" 3 0));
      [discriminate|reflexivity..].
Defined.

(** C2 as the specification words it fails for a later message that names
    no handle: the transaction [xxx] is registered and not marked, the Event
    that answers it marks it, and the next message with that transaction id,
    whose handle id is zero, is handed to no handle: the pass does nothing.
    One that names handle 8, which session 5 does not have, is handed to no
    handle either. *)
Lemma event_reply_marks_transaction_counterexample :
  transactions (gateway asked) !! FromString "xxx" = Some 4
  ∧ transactionUsed FromString asked (mkBaseMsg "event" "xxx" 5 7) = false
  ∧ pass asked (inr "event xxx 5 7")
    = (answered, [GoPassMsg 4 (EventMsg "event xxx 5 7" "")], Continue)
  ∧ Unmarshal_BaseMsg "event xxx 5 0" = inr (mkBaseMsg "event" "xxx" 5 0)
  ∧ pass answered (inr "event xxx 5 0") = (answered, [], Continue)
  ∧ Unmarshal_BaseMsg "event xxx 5 8" = inr (mkBaseMsg "event" "xxx" 5 8)
  ∧ pass answered (inr "event xxx 5 8")
    = (answered,
       [Printf "Unable to deliver message. Handle gone?\n" None], Continue).
Proof. split_and!; reflexivity. Qed.

(** The witness of C3: a reply to a transaction nobody registered ends
    [recv]; a push for session 99, which does not exist, and a push for handle
    8 of session 5, which does not exist, are printed and dropped. *)
Lemma recv_missing_targets_sample :
  (∃ w', recv connected [inr "event xxx 5 7"; inr "mystery"]
         = (w', [], ReturnErr (Errorf "null transaction")))
  ∧ pass connected (inr "event - 99 7")
    = (connected,
       [Printf "Unable to deliver message. Session gone?\n" None], Continue)
  ∧ pass with_handle (inr "event - 5 8")
    = (with_handle,
       [Printf "Unable to deliver message. Handle gone?\n" None], Continue).
Proof.
  split_and!.
  - destruct (recv_missing_targets FromString Unmarshal_BaseMsg types Unmarshal
                connected "event xxx 5 7" (mkBaseMsg "event" "xxx" 5 7)
                (λ _, EventMsg "" "") (EventMsg "event xxx 5 7" "")
                [inr "mystery"] eq_refl eq_refl eq_refl) as [Hreply _].
    apply Hreply; [discriminate|reflexivity..].
  - destruct (recv_missing_targets FromString Unmarshal_BaseMsg types Unmarshal
                connected "event - 99 7" (mkBaseMsg "event" "" 99 7)
                (λ _, EventMsg "" "") (EventMsg "event - 99 7" "") []
                eq_refl eq_refl eq_refl) as [_ Hpush].
    destruct (Hpush (or_introl eq_refl)) as (Hsession & _).
    apply Hsession; [discriminate|reflexivity].
  - destruct (recv_missing_targets FromString Unmarshal_BaseMsg types Unmarshal
                with_handle "event - 5 8" (mkBaseMsg "event" "" 5 8)
                (λ _, EventMsg "" "") (EventMsg "event - 5 8" "") []
                eq_refl eq_refl eq_refl) as [_ Hpush].
    destruct (Hpush (or_introl eq_refl)) as (_ & Hhandle & _).
    apply (Hhandle 0 (mkSession 5 {[ 7%N := 0 ]} 1));
      [discriminate|reflexivity..].
Defined.

(** C3 as the specification words it fails for a push that names no handle:
    session 99 is not registered, and the push for it is dropped without a
    line being printed. *)
Lemma recv_missing_targets_counterexample :
  Unmarshal_BaseMsg "event - 99 0" = inr (mkBaseMsg "event" "" 99 0)
  ∧ Sessions (gateway connected) !! 99%N = None
  ∧ pass connected (inr "event - 99 0") = (connected, [], Continue).
Proof. split_and!; reflexivity. Qed.

(** The witness of C4: [Destroy] of the sample session, answered with an
    Ack, deletes id 5 from [Sessions] and touches nothing else; [Detach] of the
    sample handle deletes id 7 from the [Handles] of the session. *)
Lemma confirmed_request_changes_hierarchy_once_sample :
  (∃ w', call_on (Destroy 0) with_handle (Received AckMsg)
         = Return (Some (RetMsg AckMsg)) None w'
         ∧ Sessions (gateway w') = delete 5%N (Sessions (gateway with_handle))
         ∧ sessions w' = sessions with_handle
         ∧ handles w' = handles with_handle)
  ∧ (∃ w', call_on (Detach 0) with_handle (Received AckMsg)
           = Return (Some (RetMsg AckMsg)) None w'
           ∧ Sessions (gateway w') = Sessions (gateway with_handle)
           ∧ sessions w' = [mkSession 5 ∅ 1]
           ∧ handles w' = handles with_handle).
Proof.
  destruct (confirmed_request_changes_hierarchy_once New Text Marshal
              with_handle) as (_ & _ & _ & _ & Hdestroy & Hdetach).
  split.
  - apply (Hdestroy 0 (mkSession 5 {[ 7%N := 0 ]} 1)). reflexivity.
  - destruct (Hdetach 0 (mkHandle 7 "" "" 3 0) (mkSession 5 {[ 7%N := 0 ]} 1)
                eq_refl eq_refl) as (w' & Hon & HSessions & Hsessions & Hhandles).
    exists w'. split_and!; [exact Hon|exact HSessions| |exact Hhandles].
    rewrite Hsessions. reflexivity.
Defined.

(** The witness of C5: [Destroy] of the sample session, refused by the
    server, returns the refusal, and session 5 is still there. *)
Lemma error_reply_is_returned_sample :
  run (Destroy 0) with_handle None [Received (ErrorMsg 458 "No such session")]
  = Some (Return None (Some (ErrorOf (ErrorMsg 458 "No such session")))
            (begin (Destroy 0) with_handle None))
  ∧ hierarchy (begin (Destroy 0) with_handle None) = hierarchy with_handle
  ∧ Sessions (gateway (begin (Destroy 0) with_handle None)) !! 5%N = Some 0.
Proof.
  destruct (error_reply_is_returned New Text Marshal (Destroy 0) with_handle
              458 "No such session" []) as (_ & _ & Hcall).
  destruct (Hcall None _ eq_refl eq_refl) as [Hrun Hsame].
  split_and!; [exact Hrun|exact Hsame|reflexivity].
Defined.

(** The witness of C6: the sample [Message], acknowledged twice before its
    Event. *)
Lemma message_waits_past_acks_sample :
  run start with_handle None
    [Received AckMsg; Received AckMsg; Received (EventMsg "started" "");
     Received AckMsg]
  = Some (Return (Some (RetMsg (EventMsg "started" ""))) None asked).
Proof.
  destruct (message_waits_past_acks New Text Marshal with_handle 1
              "started" "" [Received AckMsg]) as (_ & _ & _ & Hcall).
  apply (Hcall 0 (VAny "{request: start}") VNil None _ eq_refl eq_refl).
Defined.

(** The witness of C7: a [KeepAlive] whose Ack is two seconds away. *)
Lemma timeout_is_returned_to_the_caller_sample :
  ∃ what,
    call_timed New Text Marshal (KeepAlive 0) with_session None
      [(mkPending (Some (2 * Second, AckMsg)%Z) None, 0)]
    = Some (Return None (Some (timeout_waiting what))
              (begin (KeepAlive 0) with_session None))
    ∧ transactions (gateway (begin (KeepAlive 0) with_session None)) !! New 1
      = Some 2.
Proof.
  destruct (timeout_is_returned_to_the_caller New Text Marshal
              (KeepAlive 0) with_session None _
              (mkPending (Some (2 * Second, AckMsg)%Z) None) 0 []
              eq_refl eq_refl)
    as (what & _ & Hcall & Hreg & _).
  - intros t m [= <- _]. reflexivity.
  - intros t e [=].
  - exists what. split; [exact Hcall|exact Hreg].
Defined.

(** The witness of C8: an envelope that does not decode, a type tag nobody
    knows, and an Ack that is cut short. *)
Lemma recv_decode_faults_sample :
  recv connected [inr "{"; inr "mystery"]
  = (connected, [], ReturnErr (External "invalid character"))
  ∧ recv connected [inr "mystery"; inr "{"]
    = (connected, [Printf "Unknown message type received!\n" None],
       ReturnErr (External "invalid character"))
  ∧ recv connected [inr "ack, cut short"; inr "mystery"]
    = (connected,
       [Printf "json.Unmarshal: %s\n"
          (Some (External "unexpected end of JSON input"))],
       ReturnErr (External "unexpected end of JSON input")).
Proof.
  split_and!.
  - destruct (recv_decode_faults FromString Unmarshal_BaseMsg types Unmarshal
                connected "{" [inr "mystery"]) as (Henvelope & _).
    apply Henvelope. reflexivity.
  - destruct (recv_decode_faults FromString Unmarshal_BaseMsg types Unmarshal
                connected "mystery" [inr "{"]) as (_ & Htag & _).
    destruct (Htag (mkBaseMsg "mystery" "" 0 0) eq_refl eq_refl) as [_ Hloop].
    exact Hloop.
  - destruct (recv_decode_faults FromString Unmarshal_BaseMsg types Unmarshal
                connected "ack, cut short" [inr "mystery"]) as (_ & _ & Hmsg).
    apply (Hmsg (mkBaseMsg "ack" "xxx" 5 0) (λ _, AckMsg)); reflexivity.
Defined.

(** The witness of C9: the envelope of the sample [Message]. *)
Lemma send_fills_the_envelope_sample :
  ∃ s,
    call_begin New Text Marshal start with_handle None = Some s
    ∧ sent_guid s = 3%N
    ∧ sent_msg s !! "transaction" = Some (VString "xxx")
    ∧ sent_msg s !! "apisecret" = Some (VString "s3cret")
    ∧ sent_msg s !! "session_id" = Some (VUint 5)
    ∧ sent_msg s !! "handle_id" = Some (VUint 7)
    ∧ transactions (gateway with_handle) !! 3%N = None
    ∧ transactions (gateway (sent_world s)) !! 3%N = Some (sent_chan s)
    ∧ sent_effects s = [ConnWrite "message"].
Proof.
  eexists. split; [reflexivity|].
  destruct (send_fills_the_envelope New Text FromString Marshal
              Unmarshal_BaseMsg types Unmarshal start with_handle None _
              New_inj
              (reachable_on _ _ _ _ _ _ _ _ _ _
                 (reachable_begin _ _ _ _ _ _ _ _ _ _
                    (reachable_on _ _ _ _ _ _ _ _ _ _
                       (reachable_begin _ _ _ _ _ _ _ _ _ _
                          (reachable_Connect _ _ _ _ _ _ _ "s3cret")))))
              eq_refl)
    as ((Hguid & Hnew & _) & Htransaction & _ & Hreg & _ & Hwrite & Hsecret
        & Hsession & Hhandle).
  split_and!.
  - exact Hguid.
  - exact Htransaction.
  - exact Hsecret.
  - apply (Hsession 0 (mkSession 5 {[ 7%N := 0 ]} 1)); reflexivity.
  - apply (Hhandle 0 (mkHandle 7 "" "" 3 0)); reflexivity.
  - exact Hnew.
  - exact Hreg.
  - apply (Hwrite "message"). reflexivity.
Defined.

(** The witness of C10: whatever [recv] reads in the sample world, nothing
    is handed to channel 1, the [Events] of session 5. *)
Lemma session_events_get_no_message_sample :
  can_be asked
  ∧ Session_Events <$> sessions asked !! 0 = Some 1
  ∧ ∀ rd w' effects ctl ch msg,
      pass asked rd = (w', effects, ctl) →
      GoPassMsg ch msg ∈ effects → ch ≠ 1.
Proof.
  split_and!; [apply reachable_asked|reflexivity|].
  intros rd w' effects ctl ch msg Hpass Hin.
  destruct (session_events_get_no_message New Text FromString Marshal
              Unmarshal_BaseMsg types Unmarshal asked reachable_asked)
    as (_ & _ & Htargets & _).
  destruct (Htargets rd w' effects ctl ch msg Hpass Hin) as [_ Hsessions].
  apply (Hsessions 0 (mkSession 5 {[ 7%N := 0 ]} 1)). reflexivity.
Defined.

(** *** More of the sample run *)

Definition steps :=
  rtc (step New Text FromString Marshal Unmarshal_BaseMsg types Unmarshal).

Lemma steps_connected_asked : steps connected asked.
Proof.
  unfold asked, with_handle, with_session, begin.
  repeat first [ apply rtc_refl
               | (etrans; [|apply steps_begin])
               | (etrans; [|apply steps_on]) ].
Qed.

Lemma steps_asked_later : steps asked later.
Proof.
  unfold later, answered, begin.
  etrans; [|apply steps_begin]. apply steps_recv.
Qed.

Lemma reachable_later : can_be later.
Proof. eapply steps_reachable; [apply reachable_asked|apply steps_asked_later]. Qed.

(** The witness of X1: [Trickle] answered with its Ack. *)
Lemma plain_calls_leave_the_world_sample :
  stores (Trickle 0 VNil) = false
  ∧ call_on (Trickle 0 VNil) asked (Received AckMsg)
    = Return (Some (RetMsg AckMsg)) None asked.
Proof.
  split; [reflexivity|].
  destruct (plain_calls_leave_the_world (Trickle 0 VNil) asked eq_refl)
    as [_ Hreply].
  apply Hreply. reflexivity.
Defined.

(** The witness of X2: a [KeepAlive] whose write fails. *)
Lemma failed_send_is_returned_at_once_sample :
  ∃ s,
    call_begin New Text Marshal (KeepAlive 0) with_session
      (Some (External "broken pipe")) = Some s
    ∧ sent_err s = Some (External "broken pipe")
    ∧ run (KeepAlive 0) with_session (Some (External "broken pipe"))
        [Received AckMsg]
      = Some (Return None (Some (External "broken pipe")) (sent_world s))
    ∧ transactions (gateway (sent_world s)) !! sent_guid s
      = Some (sent_chan s).
Proof.
  eexists. split; [reflexivity|]. split; [reflexivity|].
  destruct (failed_send_is_returned_at_once New Text Marshal (KeepAlive 0)
              with_session (Some (External "broken pipe")) _
              (External "broken pipe") [Received AckMsg] eq_refl eq_refl)
    as (Hcall & _ & Hreg & _).
  split; [exact Hcall|exact Hreg].
Defined.

(** The witness of X3: a [KeepAlive] cancelled after five nanoseconds. *)
Lemma cancellation_is_returned_sample :
  call_timed New Text Marshal (KeepAlive 0) with_session None
    [(mkPending (Some (7, AckMsg)%Z)
        (Some (5, External "context canceled")%Z), 0)]
  = Some (Return None (Some (External "context canceled"))
            (begin (KeepAlive 0) with_session None)).
Proof.
  destruct (cancellation_is_returned New Text Marshal (KeepAlive 0)
              with_session None _
              (mkPending (Some (7, AckMsg)%Z)
                 (Some (5, External "context canceled")%Z)) 0 []
              5 (External "context canceled") eq_refl eq_refl eq_refl eq_refl)
    as [Hcall _].
  - intros t' m [= <- _]. reflexivity.
  - exact Hcall.
Defined.

(** The witness of X4: a [KeepAlive] whose Ack is five nanoseconds away. *)
Lemma reply_in_time_is_returned_sample :
  call_timed New Text Marshal (KeepAlive 0) with_session None
    [(mkPending (Some (5, AckMsg)%Z) None, 0)]
  = Some (Return (Some (RetMsg AckMsg)) None
            (begin (KeepAlive 0) with_session None)).
Proof.
  apply (reply_in_time_is_returned New Text Marshal (KeepAlive 0)
           with_session None _ (mkPending (Some (5, AckMsg)%Z) None) 0 []
           5 AckMsg eq_refl eq_refl eq_refl eq_refl eq_refl eq_refl).
  intros t' e [=].
Defined.

(** The witness of X5: from [Connect] to the sample [Message] and on to the
    later [KeepAlive], four requests, four transactions. *)
Lemma registry_only_grows_sample :
  can_be asked ∧ steps asked later
  ∧ size (transactions (gateway asked)) = 3
  ∧ size (transactions (gateway later)) = 4
  ∧ is_Some (transactions (gateway later) !! New 0).
Proof.
  split; [apply reachable_asked|]. split; [apply steps_asked_later|].
  destruct (registry_only_grows New Text FromString Marshal Unmarshal_BaseMsg
              types Unmarshal asked later New_inj reachable_asked
              steps_asked_later)
    as (Hasked & Hlater & _ & Hkept).
  split_and!; [exact Hasked|exact Hlater|].
  apply Hkept. exists 0. reflexivity.
Defined.

(** The witness of X6: the Event for the sample [Message], then a message
    nobody knows, then a read that fails. *)
Lemma recv_changes_only_marks_sample :
  recv asked [inr "event xxx 5 7"; inr "mystery"; inl (External "EOF")]
  = (answered,
     [GoPassMsg 4 (EventMsg "event xxx 5 7" "");
      Printf "Unknown message type received!\n" None],
     ReturnErr (External "EOF"))
  ∧ hierarchy answered = hierarchy asked
  ∧ transactions (gateway answered) = transactions (gateway asked).
Proof.
  split; [reflexivity|].
  destruct (recv_changes_only_marks FromString Unmarshal_BaseMsg types
              Unmarshal asked
              [inr "event xxx 5 7"; inr "mystery"; inl (External "EOF")]
              _ _ _ eq_refl)
    as (Hh & Ht & _).
  split; [exact Hh|exact Ht].
Defined.

(** The witness of X8: in the sample world [Detach] of the handle and
    [Destroy] of the session neither panic in [send] nor after it, and [recv]
    comes through the sample messages. *)
Lemma only_Create_and_Attach_panic_sample :
  can_be asked
  ∧ is_Some (call_begin New Text Marshal (Detach 0) asked None)
  ∧ call_on (Destroy 0) asked (Received (InfoMsg "")) ≠ Panic
  ∧ (recv asked [inr "event xxx 5 7"; inr "event xxx 5 8"]).2 ≠ Crash.
Proof.
  split; [apply reachable_asked|].
  destruct (only_Create_and_Attach_panic New Text FromString Marshal
              Unmarshal_BaseMsg types Unmarshal asked reachable_asked)
    as (Hsend & Hon & Hrecv).
  split_and!.
  - apply Hsend. exact (le_n 1).
  - intros Hpanic.
    destruct (Hon (Destroy 0) (Received (InfoMsg "")) (le_n 1) Hpanic)
      as (msg & _ & [? | (s & plugin & ?)] & _); discriminate.
  - apply (Hrecv [inr "event xxx 5 7"; inr "event xxx 5 8"]
             (recv asked [inr "event xxx 5 7"; inr "event xxx 5 8"]).1.1
             (recv asked [inr "event xxx 5 7"; inr "event xxx 5 8"]).1.2).
    reflexivity.
Defined.

(** The witness of X9: in the sample world the Event for the sample
    [Message] goes to channel 4, the channel of transaction [xxx] alone; once
    the transaction is marked it goes to channel 3, the [Events] of handle 7
    alone. *)
Lemma deliveries_do_not_cross_sample :
  pass asked (inr "event xxx 5 7")
  = (answered, [GoPassMsg 4 (EventMsg "event xxx 5 7" "")], Continue)
  ∧ (∀ id', transactions (gateway asked) !! id' = Some 4 → id' = 3%N)
  ∧ pass later (inr "event xxx 5 7")
    = (later, [GoPassMsg 3 (EventMsg "event xxx 5 7" "")], Continue)
  ∧ (∀ id ch, transactions (gateway later) !! id = Some ch → ch ≠ 3).
Proof.
  destruct (deliveries_do_not_cross New Text FromString Marshal
              Unmarshal_BaseMsg types Unmarshal asked "event xxx 5 7"
              (mkBaseMsg "event" "xxx" 5 7) (λ _, EventMsg "" "")
              (EventMsg "event xxx 5 7" "") reachable_asked
              eq_refl eq_refl eq_refl) as [_ Hreply].
  destruct (Hreply 4) as (Hpass & Hown & _);
    [discriminate|reflexivity..|].
  destruct (deliveries_do_not_cross New Text FromString Marshal
              Unmarshal_BaseMsg types Unmarshal later "event xxx 5 7"
              (mkBaseMsg "event" "xxx" 5 7) (λ _, EventMsg "" "")
              (EventMsg "event xxx 5 7" "") reachable_later
              eq_refl eq_refl eq_refl) as [Hpush _].
  destruct (Hpush 0 (mkSession 5 {[ 7%N := 0 ]} 1) 0 (mkHandle 7 "" "" 3 0))
    as (Hpass' & _ & Hother); [by right|discriminate|reflexivity..|].
  split_and!; [exact Hpass|exact Hown|exact Hpass'|exact Hother].
Defined.

(** The witness of X11: a second handle, 8, attached to the sample session
    and detached again. *)
Lemma Attach_then_Detach_sample :
  ∃ w1 w2,
    call_on (Attach 0 "janus.plugin.videoroom") with_handle
      (Received (SuccessMsg 8))
    = Return (Some (RetHandle 1)) None w1
    ∧ call_on (Detach 1) w1 (Received AckMsg)
      = Return (Some (RetMsg AckMsg)) None w2
    ∧ sessions w2 = sessions with_handle.
Proof.
  destruct (Attach_then_Detach with_handle 0 (mkSession 5 {[ 7%N := 0 ]} 1)
              "janus.plugin.videoroom" 8 eq_refl)
    as (w1 & w2 & Hattach & Hdetach & _ & Hsame & _).
  exists w1, w2. split_and!; [exact Hattach|exact Hdetach|].
  apply Hsame. reflexivity.
Defined.

(** The witness of X12: after [Detach] of handle 7, and after [Destroy] of
    session 5, the push for handle 7 of session 5 is dropped. *)
Lemma push_after_teardown_is_dropped_sample :
  pass (on_world (Detach 0) answered (Received AckMsg)) (inr "event xxx 5 7")
  = (on_world (Detach 0) answered (Received AckMsg),
     [Printf "Unable to deliver message. Handle gone?\n" None], Continue)
  ∧ pass (on_world (Destroy 0) answered (Received AckMsg)) (inr "event xxx 5 7")
    = (on_world (Destroy 0) answered (Received AckMsg),
       [Printf "Unable to deliver message. Session gone?\n" None], Continue).
Proof.
  split.
  - destruct (push_after_teardown_is_dropped FromString Unmarshal_BaseMsg
                types Unmarshal answered
                (on_world (Detach 0) answered (Received AckMsg))
                (Some (RetMsg AckMsg)) None "event xxx 5 7"
                (mkBaseMsg "event" "xxx" 5 7) (λ _, EventMsg "" "")
                (EventMsg "event xxx 5 7" "") eq_refl eq_refl eq_refl)
      as [Hdetach _]; [by right|discriminate|].
    apply (Hdetach 0 (mkHandle 7 "" "" 3 0)); reflexivity.
  - destruct (push_after_teardown_is_dropped FromString Unmarshal_BaseMsg
                types Unmarshal answered
                (on_world (Destroy 0) answered (Received AckMsg))
                (Some (RetMsg AckMsg)) None "event xxx 5 7"
                (mkBaseMsg "event" "xxx" 5 7) (λ _, EventMsg "" "")
                (EventMsg "event xxx 5 7" "") eq_refl eq_refl eq_refl)
      as [_ Hdestroy]; [by right|discriminate|].
    apply (Hdestroy 0 (mkSession 5 {[ 7%N := 0 ]} 1)); reflexivity.
Defined.

(** The witness of X13: the storing calls answered with an Info message. *)
Lemma storing_calls_take_any_reply_sample :
  call_on Create connected (Received (InfoMsg "")) = Panic
  ∧ ∃ w', call_on (Destroy 0) with_handle (Received (InfoMsg ""))
          = Return None None w'
          ∧ Sessions (gateway w') = delete 5%N (Sessions (gateway with_handle)).
Proof.
  destruct (storing_calls_take_any_reply connected (InfoMsg "") eq_refl)
    as [Hcreate _].
  destruct (storing_calls_take_any_reply with_handle (InfoMsg "") eq_refl)
    as [_ Hremove].
  split.
  - apply Hcreate. reflexivity.
  - destruct Hremove as [Hdestroy _]; [discriminate|].
    destruct (Hdestroy 0 (mkSession 5 {[ 7%N := 0 ]} 1) eq_refl)
      as (w' & Hon & HS & _).
    exists w'. split; [exact Hon|exact HS].
Defined.

(** The witness of X15: two keep-alives that get their Ack, a third that
    times out, and a beat that is never reached. *)
Lemma KeepAliveSender_runs_on_acks_sample :
  ∃ w' effects,
    Session_KeepAliveSender New Text Marshal with_session 0
      [Beaten None (Received AckMsg); Beaten None (Received AckMsg);
       Beaten None TimedOut; Beaten None (Received AckMsg)]
    = (w', effects, Returned (timeout_waiting "'keepalive'"))
    ∧ hierarchy w' = hierarchy with_session
    ∧ issued w' = issued with_session + 3
    ∧ Session_KeepAliveSender New Text Marshal with_session 0
        [Beaten None (Received AckMsg); Beaten None (Received AckMsg);
         Beaten None TimedOut]
      = (w', effects, Returned (timeout_waiting "'keepalive'")).
Proof.
  do 2 eexists.
  assert (Session_KeepAliveSender New Text Marshal with_session 0
            [Beaten None (Received AckMsg); Beaten None (Received AckMsg);
             Beaten None TimedOut]
          = (begin (KeepAlive 0) (begin (KeepAlive 0)
               (begin (KeepAlive 0) with_session None) None) None,
             [ConnWrite "keepalive"; ConnWrite "keepalive";
              ConnWrite "keepalive"],
             Returned (timeout_waiting "'keepalive'"))) as Hrun
    by reflexivity.
  destruct (KeepAliveSender_runs_on_acks New Text Marshal with_session 0 _ _ _ _
              Hrun) as (Hh & _ & Hended).
  split_and!.
  - apply (Hended ltac:(discriminate) [Beaten None (Received AckMsg)]).
  - exact Hh.
  - reflexivity.
  - exact Hrun.
Defined.

(** The witness of X16: the envelope of the sample [Message], which has a
    body and no jsep. *)
Lemma envelope_says_what_is_asked_sample :
  ∃ s,
    call_begin New Text Marshal start with_handle None = Some s
    ∧ sent_msg s !! "janus" = Some (VString "message")
    ∧ sent_msg s !! "body" = Some (VAny "{request: start}")
    ∧ sent_msg s !! "jsep" = None.
Proof.
  eexists. split; [reflexivity|].
  destruct (envelope_says_what_is_asked New Text Marshal start with_handle
              None _ eq_refl) as (Hjanus & Hbody & Hjsep).
  split_and!; [exact Hjanus|exact Hbody|exact Hjsep].
Defined.

(** The witness of X17: handle 8 is attached to the sample session, and the
    push for handle 8 of session 5 goes to its new channel. *)
Lemma push_reaches_the_attached_handle_sample :
  let w1 :=
    on_world (Attach 0 "janus.plugin.videoroom") answered
      (Received (SuccessMsg 8)) in
  call_on (Attach 0 "janus.plugin.videoroom") answered (Received (SuccessMsg 8))
  = Return (Some (RetHandle 1)) None w1
  ∧ pass w1 (inr "event xxx 5 8")
    = (w1, [GoPassMsg 5 (EventMsg "event xxx 5 8" "")], Continue).
Proof.
  intros w1.
  destruct (push_reaches_the_attached_handle FromString Unmarshal_BaseMsg
              types Unmarshal answered 0 (mkSession 5 {[ 7%N := 0 ]} 1)
              "janus.plugin.videoroom" 8 "event xxx 5 8"
              (mkBaseMsg "event" "xxx" 5 8) (λ _, EventMsg "" "")
              (EventMsg "event xxx 5 8" "")
              eq_refl eq_refl eq_refl eq_refl eq_refl)
    as (w1' & handle & Hattach & _ & _ & Hch & _ & Hpass);
    [by right|reflexivity|reflexivity|discriminate|].
  assert (w1' = w1) as ->
    by (subst w1; unfold on_world; rewrite Hattach; reflexivity).
  split; [exact Hattach|].
  rewrite Hch in Hpass. exact Hpass.
Defined.

End Sample.
